(** * six-cities CLI: offer generator and TSV-to-JSON transcoder

    A shallow embedding of the command-line tool (the streaming [generate] /
    [import] script and the older non-streaming importer of [src/cli/cli.ts])
    together with the properties of its specification.

    Conventions of the embedding:
    - a JavaScript string is the list of its UTF-16 code units ([jsstring]);
    - a [Buffer] is a list of bytes, and [Buffer.toString()] is the UTF-8
      decoder with U+FFFD replacement;
    - a JavaScript [number] is a real number (IEEE rounding, NaN and the
      infinities are outside the model), an integer-valued one a [Z];
    - [Math.random()] reads an oracle [rnd : nat -> R] at a position that is
      threaded through the code as state;
    - [console.error] and [Transform.push] append to an explicit event log. *)

From Stdlib Require Import List ZArith NArith Bool Ascii.
From Stdlib Require Strings.Byte Strings.String.
Import String.StringSyntax.
Delimit Scope string_scope with str.
From Stdlib Require Import Permutation Lia Reals Lra.
Import ListNotations.

Set Implicit Arguments.

(** ** The JavaScript runtime the program relies on *)

Module JS.

(** A UTF-16 code unit. *)
Abbreviation code_unit := N (only parsing).

Definition jsstring := list code_unit.
Definition Buffer := list Byte.byte.

(** A string literal of the source (its characters are all below U+0100). *)
Definition js (s : String.string) : jsstring :=
  map N_of_ascii (String.list_ascii_of_string s).

(** The same, with every apostrophe of the literal read as a double quote. *)
Definition jsq (s : String.string) : jsstring :=
  map (fun c => if N.eqb c 39 then 34%N else c) (js s).

Definition LF : code_unit := 10%N.
Definition TAB : code_unit := 9%N.
Definition SEMICOLON : code_unit := 59%N.

(** U+1F389, the emoji of the success messages, as a surrogate pair. *)
Definition PARTY : jsstring := [55356%N; 57225%N].

Fixpoint jsstring_eqb (a b : jsstring) : bool :=
  match a, b with
  | [], [] => true
  | x :: a', y :: b' => N.eqb x y && jsstring_eqb a' b'
  | _, _ => false
  end.

(** [s.split(sep)] for a separator of one code unit: never the empty array. *)
Fixpoint split (sep : code_unit) (s : jsstring) : list jsstring :=
  match s with
  | [] => [[]]
  | c :: s' =>
      if N.eqb c sep then [] :: split sep s'
      else match split sep s' with
           | [] => [[c]]
           | l :: ls => (c :: l) :: ls
           end
  end.

(** [xs.join(sep)] on an array of strings. *)
Fixpoint join (sep : jsstring) (xs : list jsstring) : jsstring :=
  match xs with
  | [] => []
  | [x] => x
  | x :: xs' => x ++ sep ++ join sep xs'
  end.

(** [xs.pop()]: the array without its last element, and that element
    ([undefined] on the empty array). *)
Definition pop (A : Type) (xs : list A) : list A * option A :=
  (removelast xs, last (map Some xs) None).

(** [v || ''] on a string or [undefined]. *)
Definition or_empty (v : option jsstring) : jsstring :=
  match v with
  | Some (c :: s) => c :: s
  | _ => []
  end.

(** WhiteSpace and LineTerminator code points, as [String.prototype.trim]
    strips them. *)
Definition is_white_space (c : code_unit) : bool :=
  ((9 <=? c) && (c <=? 13) || N.eqb c 32 || N.eqb c 160 || N.eqb c 5760
   || (8192 <=? c) && (c <=? 8202) || N.eqb c 8232 || N.eqb c 8233
   || N.eqb c 8239 || N.eqb c 8287 || N.eqb c 12288 || N.eqb c 65279)%N.

Fixpoint trimStart (s : jsstring) : jsstring :=
  match s with
  | c :: s' => if is_white_space c then trimStart s' else s
  | [] => []
  end.

Definition trim (s : jsstring) : jsstring :=
  rev (trimStart (rev (trimStart s))).

(** Truthiness of a string: non-empty. *)
Definition truthy (s : jsstring) : bool :=
  match s with [] => false | _ => true end.

(** *** [Buffer.toString()]: UTF-8 decoding with replacement *)

Definition REPLACEMENT : N := 65533%N.

Inductive utf8_state :=
| Idle
| Pending (cp : N) (needed : nat) (lower upper : N).

(** A lead byte (or a byte on its own) met outside a sequence. *)
Definition utf8_lead (b : N) : utf8_state * list N :=
  (if b <=? 127 then (Idle, [b])
   else if (194 <=? b) && (b <=? 223) then
     (Pending (N.land b 31) 1 128 191, [])
   else if (224 <=? b) && (b <=? 239) then
     (Pending (N.land b 15) 2 (if b =? 224 then 160 else 128)
              (if b =? 237 then 159 else 191), [])
   else if (240 <=? b) && (b <=? 244) then
     (Pending (N.land b 7) 3 (if b =? 240 then 144 else 128)
              (if b =? 244 then 143 else 191), [])
   else (Idle, [REPLACEMENT]))%N.

(** One byte of input: the next state and the code points decoded by it. A
    byte that cannot continue the pending sequence ends it with U+FFFD and is
    then read again as a lead byte. *)
Definition utf8_step (st : utf8_state) (b : N) : utf8_state * list N :=
  match st with
  | Idle => utf8_lead b
  | Pending cp needed lower upper =>
      if ((lower <=? b) && (b <=? upper))%N then
        let cp' := N.lor (N.shiftl cp 6) (N.land b 63) in
        match needed with
        | S (S n) => (Pending cp' (S n) 128 191, [])
        | _ => (Idle, [cp'])
        end
      else
        let (st', out) := utf8_lead b in (st', REPLACEMENT :: out)
  end.

Fixpoint utf8_decode (st : utf8_state) (bs : list N) : list N :=
  match bs with
  | [] => match st with Idle => [] | Pending _ _ _ _ => [REPLACEMENT] end
  | b :: bs' => let (st', out) := utf8_step st b in out ++ utf8_decode st' bs'
  end.

(** A code point as one or two UTF-16 code units. *)
Definition utf16_encode (cp : N) : jsstring :=
  (if cp <? 65536 then [cp]
   else let c := cp - 65536 in
        [55296 + N.shiftr c 10; 56320 + N.land c 1023])%N.

Definition toString (chunk : Buffer) : jsstring :=
  flat_map utf16_encode (utf8_decode Idle (map Byte.to_N chunk)).

(** *** [JSON.stringify] on an object whose values are strings *)

Definition is_high_surrogate (c : code_unit) : bool :=
  ((55296 <=? c) && (c <=? 56319))%N.
Definition is_low_surrogate (c : code_unit) : bool :=
  ((56320 <=? c) && (c <=? 57343))%N.

Definition hex_digit (d : N) : code_unit :=
  (if d <? 10 then 48 + d else 87 + d)%N.

(** [UnicodeEscape]: backslash, [u] and four lower-case hexadecimal digits. *)
Definition UnicodeEscape (c : code_unit) : jsstring :=
  [92; 117; hex_digit (N.land (N.shiftr c 12) 15);
   hex_digit (N.land (N.shiftr c 8) 15);
   hex_digit (N.land (N.shiftr c 4) 15); hex_digit (N.land c 15)]%N.

(** The escape of one code unit that is not part of a surrogate pair. *)
Definition quote_unit (c : code_unit) : jsstring :=
  (if c =? 8 then [92; 98]
   else if c =? 9 then [92; 116]
   else if c =? 10 then [92; 110]
   else if c =? 12 then [92; 102]
   else if c =? 13 then [92; 114]
   else if c =? 34 then [92; 34]
   else if c =? 92 then [92; 92]
   else if (c <? 32) || is_high_surrogate c || is_low_surrogate c
        then UnicodeEscape c
   else [c])%N.

Fixpoint quote_body (s : jsstring) : jsstring :=
  match s with
  | [] => []
  | c :: tl =>
      match tl with
      | d :: tl' =>
          if is_high_surrogate c && is_low_surrogate d
          then c :: d :: quote_body tl'
          else quote_unit c ++ quote_body tl
      | [] => quote_unit c
      end
  end.

Definition QuoteJSONString (s : jsstring) : jsstring :=
  [34%N] ++ quote_body s ++ [34%N].

(** An object with string keys, in property order; a property whose value is
    [undefined] is kept by the object and left out by [JSON.stringify]. *)
Definition object := list (jsstring * option jsstring).

(** [Object.fromEntries]: a later entry with a key already present replaces
    the value and keeps the key's first position. *)
Fixpoint object_set (o : object) (k : jsstring) (v : option jsstring) : object :=
  match o with
  | [] => [(k, v)]
  | (k', v') :: o' =>
      if jsstring_eqb k' k then (k', v) :: o' else (k', v') :: object_set o' k v
  end.

Definition fromEntries (entries : list (jsstring * option jsstring)) : object :=
  fold_left (fun o e => object_set o (fst e) (snd e)) entries [].

Definition JSON_property (e : jsstring * option jsstring) : list jsstring :=
  match snd e with
  | Some v => [QuoteJSONString (fst e) ++ [58%N] ++ QuoteJSONString v]
  | None => []
  end.

Definition JSON_stringify (o : object) : jsstring :=
  [123%N] ++ join [44%N] (flat_map JSON_property o) ++ [125%N].

End JS.

(** ** The TSV-to-JSON transcoder: [class TSVTransform extends Transform] *)

Module TSVTransform.
Import JS.

(** What the transform does to the outside: [this.push(data)] hands [data]
    to the readable side, [console.error(chalk.yellow(message))] prints a
    warning. *)
Inductive event :=
| Push (data : jsstring)
| Warning (message : jsstring).

(** The mutable field of the instance; [columns] is read-only. *)
Record state := { remainder : jsstring }.

Definition columns : list jsstring :=
  map js
    ["title"; "description"; "city"; "previewImage"; "photos"; "isPremium";
     "rating"; "type"; "rooms"; "guests"; "price"; "features"; "authorName";
     "authorEmail"; "authorAvatar"; "authorIsPro"; "latitude";
     "longitude"]%str.

Definition constructor : state := {| remainder := [] |}.

(** [xs.map((x, index) => f x index)] *)
Fixpoint mapi_from (A B : Type) (f : A -> nat -> B) (i : nat) (xs : list A)
  : list B :=
  match xs with
  | [] => []
  | x :: xs' => f x i :: mapi_from f (S i) xs'
  end.

(** [Object.fromEntries(this.columns.map((key, index) => [key, values[index]]))] *)
Definition offer (values : list jsstring) : object :=
  fromEntries (mapi_from (fun key index => (key, nth_error values index)) 0 columns).

(** [this.push(`${JSON.stringify(offer)}\n`)] *)
Definition push_offer (values : list jsstring) : event :=
  Push (JSON_stringify (offer values) ++ [LF]).

(** The body of the [for (const line of lines)] loop. Neither
    [Object.fromEntries] nor [JSON.stringify] throws on these arguments, so
    the [catch] branch is never taken. *)
Definition transform_line (line : jsstring) : list event :=
  if negb (truthy (trim line)) then []
  else
    let values := split TAB line in
    if negb (length values =? length columns)%nat then
      [Warning (js "Warning: Skipping invalid line: "%str ++ line)]
    else [push_offer values].

Definition _transform (st : state) (chunk : Buffer) : state * list event :=
  let (lines, popped) := pop (split LF (remainder st ++ toString chunk)) in
  ({| remainder := or_empty popped |}, flat_map transform_line lines).

Definition _flush (st : state) : list event :=
  if truthy (remainder st) then
    let values := split TAB (remainder st) in
    if (length values =? length columns)%nat then [push_offer values] else []
  else [].

(** The chunks of a stream delivered in order, without the final flush. *)
Fixpoint feed (st : state) (chunks : list Buffer) : state * list event :=
  match chunks with
  | [] => (st, [])
  | chunk :: rest =>
      let (st1, out1) := _transform st chunk in
      let (st2, out2) := feed st1 rest in
      (st2, out1 ++ out2)
  end.

(** [pipeline(source, new TSVTransform(), sink)]: every chunk of the source
    through [_transform], then [_flush] once. *)
Definition pipeline (chunks : list Buffer) : list event :=
  let (st, out) := feed constructor chunks in out ++ _flush st.

Definition pushed (evs : list event) : list jsstring :=
  flat_map (fun e => match e with Push d => [d] | Warning _ => [] end) evs.

Definition warnings (evs : list event) : list jsstring :=
  flat_map (fun e => match e with Push _ => [] | Warning m => [m] end) evs.

(** The text a stream of chunks carries, each chunk decoded on its own. *)
Definition decoded (chunks : list Buffer) : jsstring :=
  concat (map toString chunks).

(** The newline-terminated lines of a text, and what follows its last
    newline. *)
Definition complete_lines (text : jsstring) : list jsstring :=
  removelast (split LF text).

Definition tail_line (text : jsstring) : jsstring :=
  last (split LF text) [].

(** The bytes of an ASCII literal, and of fields joined by tabs with a final
    newline. *)
Definition ascii_bytes (s : String.string) : Buffer :=
  String.list_byte_of_string s.

Fixpoint tsv_bytes (fields : list String.string) : Buffer :=
  match fields with
  | [] => [Byte.x0a]
  | [f] => ascii_bytes f ++ [Byte.x0a]
  | f :: fs => ascii_bytes f ++ [Byte.x09] ++ tsv_bytes fs
  end.

(** The line of the specification's end-to-end example, as the bytes of one
    chunk. *)
Definition example_fields : list String.string :=
  ["Cozy Loft"; "Nice place"; "Paris"; "img.jpg"; "img.jpg;img2.jpg"; "true";
   "4.5"; "apartment"; "2"; "4"; "120"; "wifi;parking"; "Jane"; "jane@x.com";
   "avatar.jpg"; "false"; "48.856600"; "2.352200"]%str.

Definition example_chunk : Buffer := tsv_bytes example_fields.

Definition example_line : jsstring := join [TAB] (map js example_fields).

(** The JSON text the specification gives for it (apostrophes stand for
    double quotes). *)
Definition example_json : jsstring :=
  jsq "{'title':'Cozy Loft','description':'Nice place','city':'Paris',"%str
  ++ jsq "'previewImage':'img.jpg','photos':'img.jpg;img2.jpg',"%str
  ++ jsq "'isPremium':'true','rating':'4.5','type':'apartment','rooms':'2',"%str
  ++ jsq "'guests':'4','price':'120','features':'wifi;parking',"%str
  ++ jsq "'authorName':'Jane','authorEmail':'jane@x.com',"%str
  ++ jsq "'authorAvatar':'avatar.jpg','authorIsPro':'false',"%str
  ++ jsq "'latitude':'48.856600','longitude':'2.352200'}"%str.

End TSVTransform.


(** ** The offer generator *)

Module Generator.
Import JS.

(** *** Numbers to text *)

Fixpoint uint_digits (d : Decimal.uint) : jsstring :=
  match d with
  | Decimal.Nil => []
  | Decimal.D0 d' => 48%N :: uint_digits d'
  | Decimal.D1 d' => 49%N :: uint_digits d'
  | Decimal.D2 d' => 50%N :: uint_digits d'
  | Decimal.D3 d' => 51%N :: uint_digits d'
  | Decimal.D4 d' => 52%N :: uint_digits d'
  | Decimal.D5 d' => 53%N :: uint_digits d'
  | Decimal.D6 d' => 54%N :: uint_digits d'
  | Decimal.D7 d' => 55%N :: uint_digits d'
  | Decimal.D8 d' => 56%N :: uint_digits d'
  | Decimal.D9 d' => 57%N :: uint_digits d'
  end.

(** The decimal digits of a natural number ([0] for zero). *)
Definition decimal (n : N) : jsstring := uint_digits (N.to_uint n).

(** [ToString] of an integer-valued number. *)
Definition int_toString (z : Z) : jsstring :=
  if (z <? 0)%Z then 45%N :: decimal (Z.abs_N z) else decimal (Z.to_N z).

Definition bool_toString (b : bool) : jsstring :=
  if b then js "true"%str else js "false"%str.

(** [x.toFixed(fractionDigits)] for [|x| < 10^21]: the integer [n] nearest
    to [|x| * 10^fractionDigits] (the larger one on a tie), written with at
    least [fractionDigits + 1] digits and a point before the last
    [fractionDigits] of them, after a minus sign when [x < 0]. *)
Definition toFixed (x : R) (fractionDigits : nat) : jsstring :=
  let s := if Rlt_dec x 0 then [45%N] else [] in
  let n := Zfloor (Rabs x * 10 ^ fractionDigits + / 2)%R in
  let m := decimal (Z.to_N n) in
  let m := repeat 48%N (S fractionDigits - length m) ++ m in
  let k := length m in
  s ++ match fractionDigits with
       | O => m
       | _ => firstn (k - fractionDigits) m ++ [46%N]
              ++ skipn (k - fractionDigits) m
       end.

(** *** Data *)

Record user := {
  name : jsstring;
  email : jsstring;
  avatarUrl : jsstring;
  type : jsstring
}.

Module Center.
Record t := { latitude : R; longitude : R; radius : R }.
End Center.

Module Location.
Record t := { latitude : R; longitude : R }.
End Location.

Record MockServerData := {
  titles : list jsstring;
  descriptions : list jsstring;
  cities : list jsstring;
  previewImages : list jsstring;
  propertyTypes : list jsstring;
  features : list jsstring;
  users : list user;
  coordinates : list (jsstring * Center.t)
}.

(** The [offer] object of one iteration. A property is [None] when the
    expression that initialises it evaluates to [undefined]. *)
Record Offer := {
  offer_title : option jsstring;
  offer_description : option jsstring;
  offer_city : option jsstring;
  offer_previewImage : option jsstring;
  offer_photos : jsstring;
  offer_isPremium : bool;
  offer_rating : jsstring;
  offer_type : option jsstring;
  offer_rooms : Z;
  offer_guests : Z;
  offer_price : Z;
  offer_features : jsstring;
  offer_authorName : jsstring;
  offer_authorEmail : jsstring;
  offer_authorAvatar : jsstring;
  offer_authorIsPro : bool;
  offer_latitude : jsstring;
  offer_longitude : jsstring
}.

(** An element of the [row] array. *)
Inductive value :=
| Undefined
| Str (s : jsstring)
| Bool (b : bool)
| Int (z : Z).

Definition of_option (v : option jsstring) : value :=
  match v with Some s => Str s | None => Undefined end.

(** How [Array.prototype.join] writes an element: nothing for [undefined]. *)
Definition value_toString (v : value) : jsstring :=
  match v with
  | Undefined => []
  | Str s => s
  | Bool b => bool_toString b
  | Int z => int_toString z
  end.

(** [items[i]] for an integer [i]. *)
Definition item (T : Type) (items : list T) (i : Z) : option T :=
  if (i <? 0)%Z then None else nth_error items (Z.to_nat i).

(** [xs.slice(0, count)] for an integer [count]. *)
Definition slice0 (T : Type) (xs : list T) (count : Z) : list T :=
  if (count <? 0)%Z then firstn (length xs - Z.to_nat (- count)) xs
  else firstn (Z.to_nat count) xs.

(** [obj[key]] on an object used as a map: the value of the property. *)
Fixpoint property (T : Type) (obj : list (jsstring * T)) (key : jsstring)
  : option T :=
  match obj with
  | [] => None
  | (k, v) :: obj' => if jsstring_eqb k key then Some v else property obj' key
  end.

(** [String(v)] of a string or [undefined], as a property key. *)
Definition key_of (v : option jsstring) : jsstring :=
  match v with Some s => s | None => js "undefined"%str end.

(** *** Computations: the position in the random oracle is state, a
    [TypeError] ends the computation *)

Inductive completion (A : Type) :=
| Normal (a : A)
| Throw (message : jsstring).
Arguments Throw {A} message.

Definition M (A : Type) := nat -> completion (A * nat).

Definition ret (A : Type) (a : A) : M A := fun p => Normal (a, p).

Definition bind (A B : Type) (m : M A) (k : A -> M B) : M B :=
  fun p => match m p with
           | Normal (a, p') => k a p'
           | Throw e => Throw e
           end.

Definition throw (A : Type) (message : jsstring) : M A :=
  fun _ => Throw message.
Arguments throw {A} message.

Notation "x <- m ;; k" := (bind m (fun x => k))
  (at level 61, m at next level, right associativity).

Definition TypeError_undefined (prop : String.string) : jsstring :=
  js "TypeError: Cannot read properties of undefined (reading '"%str
  ++ js prop ++ js "')"%str.

Section Generator.

(** The values [Math.random()] returns, in call order. *)
Variable rnd : nat -> R.

(** [Array.prototype.sort] with a comparison function: the order of the
    result and the calls of the comparison function are the engine's. *)
Variable Array_sort :
  forall T : Type, (T -> T -> M R) -> list T -> M (list T).

Local Open Scope R_scope.

Definition Math_random : M R := fun p => Normal (rnd p, S p).

Definition generateRandomNumber (min max : Z) : M Z :=
  u <- Math_random ;;
  ret (Zfloor (u * (IZR max - IZR min + 1) + IZR min)).

Definition getRandomItem (T : Type) (items : list T) : M (option T) :=
  u <- Math_random ;;
  ret (item items (Zfloor (u * INR (length items)))).

Definition getRandomItems (T : Type) (items : list T) (count : Z)
  : M (list T) :=
  shuffled <- Array_sort (fun _ _ => u <- Math_random ;; ret (0.5 - u)) items ;;
  ret (slice0 shuffled count).

Definition generateRandomLocation (center : option Center.t)
  : M Location.t :=
  match center with
  | None => throw (TypeError_undefined "radius"%str)
  | Some center =>
      let radiusInDeg := Center.radius center / 111 in
      u <- Math_random ;;
      let randomAngle := u * 2 * PI in
      v <- Math_random ;;
      let randomRadius := sqrt v * radiusInDeg in
      ret {| Location.latitude :=
               Center.latitude center + randomRadius * cos randomAngle;
             Location.longitude :=
               Center.longitude center + randomRadius * sin randomAngle |}
  end.

(** [user.prop] on a user that may be [undefined]. *)
Definition user_get (A : Type) (u : option user) (prop : String.string)
  (get : user -> A) : M A :=
  match u with
  | Some u => ret (get u)
  | None => throw (TypeError_undefined prop)
  end.

(** The statements of the loop body up to and including [const offer]. *)
Definition make_offer (mockData : MockServerData) : M Offer :=
  city <- getRandomItem (cities mockData) ;;
  let cityCoords := property (coordinates mockData) (key_of city) in
  location <- generateRandomLocation cityCoords ;;
  photosCount <- generateRandomNumber 3 6 ;;
  photos <- getRandomItems (previewImages mockData) photosCount ;;
  user <- getRandomItem (users mockData) ;;
  title <- getRandomItem (titles mockData) ;;
  description <- getRandomItem (descriptions mockData) ;;
  previewImage <- getRandomItem (previewImages mockData) ;;
  isPremium <- Math_random ;;
  rating <- Math_random ;;
  type' <- getRandomItem (propertyTypes mockData) ;;
  rooms <- generateRandomNumber 1 5 ;;
  guests <- generateRandomNumber 1 10 ;;
  price <- generateRandomNumber 50 1000 ;;
  featuresCount <- generateRandomNumber 2 6 ;;
  features' <- getRandomItems (features mockData) featuresCount ;;
  authorName <- user_get user "name"%str name ;;
  authorEmail <- user_get user "email"%str email ;;
  authorAvatar <- user_get user "avatarUrl"%str avatarUrl ;;
  authorType <- user_get user "type"%str type ;;
  ret {| offer_title := title;
         offer_description := description;
         offer_city := city;
         offer_previewImage := previewImage;
         offer_photos := join [SEMICOLON] photos;
         offer_isPremium := if Rlt_dec isPremium 0.2 then true else false;
         offer_rating := toFixed (rating * 2 + 3) 1;
         offer_type := type';
         offer_rooms := rooms;
         offer_guests := guests;
         offer_price := price;
         offer_features := join [SEMICOLON] features';
         offer_authorName := authorName;
         offer_authorEmail := authorEmail;
         offer_authorAvatar := authorAvatar;
         offer_authorIsPro := jsstring_eqb authorType (js "pro"%str);
         offer_latitude := toFixed (Location.latitude location) 6;
         offer_longitude := toFixed (Location.longitude location) 6 |}.

(** The [row] array of the offer. *)
Definition row_values (offer : Offer) : list value :=
  [of_option (offer_title offer);
   of_option (offer_description offer);
   of_option (offer_city offer);
   of_option (offer_previewImage offer);
   Str (offer_photos offer);
   Bool (offer_isPremium offer);
   Str (offer_rating offer);
   of_option (offer_type offer);
   Int (offer_rooms offer);
   Int (offer_guests offer);
   Int (offer_price offer);
   Str (offer_features offer);
   Str (offer_authorName offer);
   Str (offer_authorEmail offer);
   Str (offer_authorAvatar offer);
   Bool (offer_authorIsPro offer);
   Str (offer_latitude offer);
   Str (offer_longitude offer)].

(** [`${row}\n`] with [row] the values joined by tabs. *)
Definition line_of (offer : Offer) : jsstring :=
  join [TAB] (map value_toString (row_values offer)) ++ [LF].

(** The generator object: the loop counter [i] and the position in the
    random oracle, as they stand while the generator is suspended. *)
Record generator := { i : Z; position : nat }.

Definition generateOffers_start (position : nat) : generator :=
  {| i := 0; position := position |}.

(** One [next()]: runs the loop up to its next [yield]. [Some line] is
    [{ value: line, done: false }], [None] is [{ done: true }]. *)
Definition next (mockData : MockServerData) (count : Z) (g : generator)
  : completion (option jsstring * generator) :=
  if (i g <? count)%Z then
    match make_offer mockData (position g) with
    | Normal (offer, p) =>
        Normal (Some (line_of offer), {| i := i g + 1; position := p |})
    | Throw e => Throw e
    end
  else Normal (None, g).

(** [n] successive pulls and what each of them returned. *)
Fixpoint pull (mockData : MockServerData) (count : Z) (n : nat)
  (g : generator) : completion (list (option jsstring) * generator) :=
  match n with
  | O => Normal ([], g)
  | S n' =>
      match next mockData count g with
      | Normal (r, g') =>
          match pull mockData count n' g' with
          | Normal (rs, g'') => Normal (r :: rs, g'')
          | Throw e => Throw e
          end
      | Throw e => Throw e
      end
  end.

End Generator.

(** *** The vocabulary of the generator's properties *)

(** [m] completes normally from every position of the oracle, with a value
    that satisfies [Q]. *)
Definition returns (A : Type) (m : M A) (Q : A -> Prop) : Prop :=
  forall p, exists a p', m p = Normal (a, p') /\ Q a.

(** The result of picking from [items]: one of them, [undefined] when there
    is none. *)
Definition picked (T : Type) (items : list T) (v : option T) : Prop :=
  match items with
  | [] => v = None
  | _ => exists x, v = Some x /\ In x items
  end.

(** The data model's invariant, as far as the generator depends on it:
    there is a user and a city, and every city has a coordinate entry. *)
Definition well_formed (mockData : MockServerData) : Prop :=
  users mockData <> []
  /\ cities mockData <> []
  /\ forall city, In city (cities mockData) ->
       exists center, property (coordinates mockData) city = Some center.

Definition no_tab (s : jsstring) : Prop := ~ In TAB s.

(** No string of the dataset that reaches a row holds a tab: the titles, and
    the other collections. *)
Definition tab_free_but_titles (mockData : MockServerData) : Prop :=
  Forall no_tab (descriptions mockData)
  /\ Forall no_tab (cities mockData)
  /\ Forall no_tab (previewImages mockData)
  /\ Forall no_tab (propertyTypes mockData)
  /\ Forall no_tab (features mockData)
  /\ Forall (fun u => no_tab (name u) /\ no_tab (email u)
                      /\ no_tab (avatarUrl u)) (users mockData).

Definition tab_free (mockData : MockServerData) : Prop :=
  Forall no_tab (titles mockData) /\ tab_free_but_titles mockData.

(** A line as the file format wants it: ended by a newline, with eighteen
    tab-separated fields. *)
Definition row_line (line : jsstring) : Prop :=
  (exists row, line = row ++ [LF]) /\ length (split TAB line) = 18%nat.

(** The distance, in degrees, between a location and a centre. *)
Definition distance (center : Center.t) (location : Location.t) : R :=
  sqrt ((Location.latitude location - Center.latitude center) ^ 2
        + (Location.longitude location - Center.longitude center) ^ 2).

(** The text [d.d] of [n] tenths, for [0 <= n < 100]. *)
Definition tenths (n : Z) : jsstring :=
  decimal (Z.to_N (n / 10)) ++ [46%N] ++ decimal (Z.to_N (n mod 10)).

(** The number of tabs in a text. *)
Definition tabs (s : jsstring) : nat := count_occ N.eq_dec s TAB.

(** [count] items of [items], or all of them when there are fewer, joined
    by semicolons. *)
Definition sample_of (items : list jsstring) (lo hi : Z) (text : jsstring)
  : Prop :=
  exists (count : Z) (sample : list jsstring),
    (lo <= count <= hi)%Z
    /\ text = join [SEMICOLON] sample
    /\ length sample = Nat.min (Z.to_nat count) (length items)
    /\ incl sample items.

(** What one iteration makes of the dataset. *)
Definition offer_spec (mockData : MockServerData) (o : Offer) : Prop :=
  picked (titles mockData) (offer_title o)
  /\ picked (descriptions mockData) (offer_description o)
  /\ picked (previewImages mockData) (offer_previewImage o)
  /\ picked (propertyTypes mockData) (offer_type o)
  /\ sample_of (previewImages mockData) 3 6 (offer_photos o)
  /\ sample_of (features mockData) 2 6 (offer_features o)
  /\ (exists n, (30 <= n <= 50)%Z /\ offer_rating o = tenths n)
  /\ (1 <= offer_rooms o <= 5)%Z
  /\ (1 <= offer_guests o <= 10)%Z
  /\ (50 <= offer_price o <= 1000)%Z
  /\ (exists user,
         In user (users mockData)
         /\ offer_authorName o = name user
         /\ offer_authorEmail o = email user
         /\ offer_authorAvatar o = avatarUrl user
         /\ offer_authorIsPro o = jsstring_eqb (type user) (js "pro"%str))
  /\ (exists city center location,
         offer_city o = Some city
         /\ In city (cities mockData)
         /\ property (coordinates mockData) city = Some center
         /\ (distance center location <= Rabs (Center.radius center) / 111)%R
         /\ offer_latitude o = toFixed (Location.latitude location) 6
         /\ offer_longitude o = toFixed (Location.longitude location) 6).

(** Characters of numbers written out: digits, minus sign and point. *)
Definition numeric (c : code_unit) : Prop :=
  c = 45%N \/ c = 46%N \/ (48 <= c <= 57)%N.

(** Concrete instances: an oracle that always answers 0, a sort that leaves
    the array as it is, and small datasets. *)
Definition rnd_zero : nat -> R := fun _ => 0%R.

Definition sort_keep (T : Type) (comparefn : T -> T -> M R)
  (xs : list T) : M (list T) := ret xs.

Definition paris : Center.t :=
  {| Center.latitude := 48.8566;
     Center.longitude := 2.3522;
     Center.radius := 10 |}.

Definition jane : user :=
  {| name := js "Jane"%str;
     email := js "jane@x.com"%str;
     avatarUrl := js "avatar.jpg"%str;
     type := js "pro"%str |}.

Definition dataset (titles previewImages : list jsstring)
  : MockServerData :=
  {| titles := titles;
     descriptions := [js "Nice place"%str];
     cities := [js "Paris"%str];
     previewImages := previewImages;
     propertyTypes := [js "apartment"%str];
     features := map js ["wifi"; "parking"]%str;
     users := [jane];
     coordinates := [(js "Paris"%str, paris)] |}.

Definition sample_data : MockServerData :=
  dataset [js "Cozy Loft"%str]
          (map js ["img1.jpg"; "img2.jpg"; "img3.jpg"]%str).

(** A title with a tab in it. *)
Definition tabbed_data : MockServerData :=
  dataset [js "Cozy"%str ++ [TAB] ++ js "Loft"%str]
          (map js ["img1.jpg"; "img2.jpg"; "img3.jpg"]%str).

(** A single preview image. *)
Definition one_image_data : MockServerData :=
  dataset [js "Cozy Loft"%str] [js "img.jpg"%str].

End Generator.

(** ** [Promise.all] over promises that settle in some order *)

Module Promise.
Import JS.

Inductive settled (A : Type) :=
| Fulfilled (v : A)
| Rejected (reason : jsstring).
Arguments Rejected {A} reason.

(** The record [Promise.all] keeps while its elements settle: the values
    received so far, how many are still awaited, and the settlement of the
    combined promise once there is one. *)
Record all_state (A : Type) := {
  values : list (option A);
  remainingElementsCount : nat;
  result : option (settled (list A))
}.

Definition all_start (A : Type) (n : nat) : all_state A :=
  {| values := repeat None n;
     remainingElementsCount := n;
     result := match n with O => Some (Fulfilled []) | _ => None end |}.

Fixpoint set_nth (A : Type) (xs : list A) (index : nat) (x : A) : list A :=
  match xs, index with
  | [] , _ => []
  | _ :: xs', O => x :: xs'
  | y :: xs', S k => y :: set_nth xs' k x
  end.

Definition present (A : Type) (xs : list (option A)) : list A :=
  flat_map (fun o => match o with Some v => [v] | None => [] end) xs.

(** The combined promise settles once: a later resolution or rejection of an
    already settled promise changes nothing. *)
Definition settle_once (A : Type) (current : option (settled (list A)))
  (s : settled (list A)) : option (settled (list A)) :=
  match current with
  | None => Some s
  | Some _ => current
  end.

(** The reaction to element [index] settling with [r]. *)
Definition on_settled (A : Type) (st : all_state A) (index : nat)
  (r : settled A) : all_state A :=
  match r with
  | Rejected e =>
      {| values := values st;
         remainingElementsCount := remainingElementsCount st;
         result := settle_once (result st) (Rejected e) |}
  | Fulfilled v =>
      match nth_error (values st) index with
      | Some None =>
          let values' := set_nth (values st) index (Some v) in
          let remaining := pred (remainingElementsCount st) in
          {| values := values';
             remainingElementsCount := remaining;
             result := match remaining with
                       | O => settle_once (result st)
                                (Fulfilled (present values'))
                       | _ => result st
                       end |}
      | _ => st
      end
  end.

(** [Promise.all(promises)] after the elements named by [order] have
    settled, in that order; [promises] gives how each element settles. *)
Definition all_after (A : Type) (promises : list (settled A))
  (order : list nat) : all_state A :=
  fold_left
    (fun st index =>
       match nth_error promises index with
       | Some r => on_settled st index r
       | None => st
       end)
    order (all_start A (length promises)).

Definition all (A : Type) (promises : list (settled A)) (order : list nat)
  : option (settled (list A)) :=
  result (all_after promises order).

(** The value element [index] fulfils with, if it does. *)
Definition fulfilled_value (A : Type) (promises : list (settled A))
  (index : nat) : option A :=
  match nth_error promises index with
  | Some (Fulfilled v) => Some v
  | _ => None
  end.

(** Distinct elements that all fulfil. *)
Definition all_fulfilled (A : Type) (promises : list (settled A))
  (indices : list nat) : Prop :=
  NoDup indices
  /\ forall index, In index indices ->
       exists v, nth_error promises index = Some (Fulfilled v).

End Promise.

(** ** The [generate] command *)

Module Generate.
Import JS Generator Promise.

Inductive event :=
| Log (message : jsstring)
| Error (message : jsstring)
| Get (url : jsstring)
| CreateWriteStream (filepath : jsstring)
| Write (filepath : jsstring) (data : jsstring)
| EndWrite (filepath : jsstring).

Inductive outcome :=
| Returned
| Thrown (error : jsstring)
| Suspended.

(** The URLs requested and the lines written, in order. *)
Definition requests (evs : list event) : list jsstring :=
  flat_map (fun e => match e with Get url => [url] | _ => [] end) evs.

Definition writes (evs : list event) : list jsstring :=
  flat_map (fun e => match e with Write _ data => [data] | _ => [] end) evs.

Definition resources : list jsstring :=
  map js ["titles"; "descriptions"; "cities"; "previewImages";
          "propertyTypes"; "features"; "users"; "coordinates"]%str.

(** [`${url}/${resource}`] for the eight resources, in source order. *)
Definition request_urls (url : jsstring) : list jsstring :=
  map (fun resource => url ++ js "/"%str ++ resource) resources.

(** [for await (const offerLine of generateOffers(mockData, count))] with
    the write of each line; [fuel] bounds the number of pulls. *)
Fixpoint for_await (rnd : nat -> R)
  (Array_sort : forall T : Type, (T -> T -> M R) -> list T -> M (list T))
  (mockData : MockServerData) (count : Z) (filepath : jsstring)
  (fuel : nat) (g : generator) : list event * outcome :=
  match fuel with
  | O => ([], Suspended)
  | S fuel' =>
      match next rnd Array_sort mockData count g with
      | Throw e => ([], Thrown e)
      | Normal (None, _) => ([], Returned)
      | Normal (Some offerLine, g') =>
          let (evs, o) :=
            for_await rnd Array_sort mockData count filepath fuel' g' in
          (Write filepath offerLine :: evs, o)
      end
  end.

Section Command.

(** A parsed response body, and the eight unchecked readings of one that
    [as MockServerData] amounts to. *)
Variable payload : Type.
Variable as_strings : payload -> list jsstring.
Variable as_users : payload -> list user.
Variable as_coordinates : payload -> list (jsstring * Center.t).

(** How [got(url).json()] settles. *)
Variable got : jsstring -> settled payload.

Variable rnd : nat -> R.
Variable Array_sort :
  forall T : Type, (T -> T -> M R) -> list T -> M (list T).

Definition strings_at (vs : list payload) (index : nat) : list jsstring :=
  match nth_error vs index with Some v => as_strings v | None => [] end.

(** The object literal cast to [MockServerData]. *)
Definition mockData_of (vs : list payload) : MockServerData :=
  {| titles := strings_at vs 0;
     descriptions := strings_at vs 1;
     cities := strings_at vs 2;
     previewImages := strings_at vs 3;
     propertyTypes := strings_at vs 4;
     features := strings_at vs 5;
     users := match nth_error vs 6 with Some v => as_users v | None => [] end;
     coordinates :=
       match nth_error vs 7 with Some v => as_coordinates v | None => [] end |}.

(** The [catch] block: report and rethrow. *)
Definition failed (evs : list event) (error : jsstring)
  : list event * outcome :=
  (evs ++ [Error (LF :: js "Failed to generate data:"%str); Error error],
   Thrown error).

(** [handleGenerateCommand(count, filepath, url)]. [order] is the order in
    which the eight requests settle, [position] the position of the random
    oracle at the call, [fuel] a bound on the pulls of the write loop. *)
Definition handleGenerateCommand (count : Z) (filepath url : jsstring)
  (order : list nat) (position fuel : nat) : list event * outcome :=
  let urls := request_urls url in
  let fetching :=
    Log (js "Fetching data from "%str ++ url) :: map Get urls in
  match Promise.all (map got urls) order with
  | None => (fetching, Suspended)
  | Some (Rejected error) => failed fetching error
  | Some (Fulfilled vs) =>
      let mockData := mockData_of vs in
      let generating :=
        [Log (js "Generating "%str ++ int_toString count
              ++ js " offers..."%str);
         CreateWriteStream filepath] in
      let (written, o) :=
        for_await rnd Array_sort mockData count filepath fuel
          (generateOffers_start position) in
      match o with
      | Returned =>
          (fetching ++ generating ++ written
           ++ [EndWrite filepath;
               Log (LF :: PARTY ++ js " Data generation completed!"%str);
               Log (js "Generated "%str ++ int_toString count
                    ++ js " offers to "%str ++ filepath)],
           Returned)
      | Thrown error => failed (fetching ++ generating ++ written) error
      | Suspended => (fetching ++ generating ++ written, Suspended)
      end
  end.

End Command.

End Generate.

(** ** The non-streaming importer of [src/cli/cli.ts] *)

Module Cli.
Import JS.

Inductive completion (A : Type) :=
| Normal (a : A)
| Throw (message : jsstring).
Arguments Throw {A} message.

Definition TypeError_split : jsstring :=
  js "TypeError: Cannot read properties of undefined (reading 'split')"%str.

Section Importer.

(** The type of numbers and [Number(v)] on a string or [undefined]. *)
Variable number : Type.
Variable Number : option jsstring -> number.

Record author := {
  name : option jsstring;
  email : option jsstring;
  avatarUrl : option jsstring;
  isPro : bool
}.

Record location := { latitude : number; longitude : number }.

(** The object a row is mapped to. *)
Record RentOffer := {
  title : option jsstring;
  description : option jsstring;
  city : option jsstring;
  previewImage : option jsstring;
  photos : list jsstring;
  isPremium : bool;
  rating : number;
  type : option jsstring;
  rooms : number;
  guests : number;
  price : number;
  features : list jsstring;
  offer_author : author;
  offer_location : location
}.

(** [v === 'true'] on a string or [undefined]. *)
Definition is_true (v : option jsstring) : bool :=
  match v with Some s => jsstring_eqb s (js "true"%str) | None => false end.

(** The callback of [rows.map]: the array pattern binds the first eighteen
    fields, [undefined] where the row has fewer. *)
Definition parse_row (row : jsstring) : completion RentOffer :=
  let fields := split TAB row in
  let field := nth_error fields in
  match field 4%nat with
  | None => Throw TypeError_split
  | Some photos' =>
      match field 11%nat with
      | None => Throw TypeError_split
      | Some features' =>
          Normal
            {| title := field 0%nat;
               description := field 1%nat;
               city := field 2%nat;
               previewImage := field 3%nat;
               photos := split SEMICOLON photos';
               isPremium := is_true (field 5%nat);
               rating := Number (field 6%nat);
               type := field 7%nat;
               rooms := Number (field 8%nat);
               guests := Number (field 9%nat);
               price := Number (field 10%nat);
               features := split SEMICOLON features';
               offer_author :=
                 {| name := field 12%nat;
                    email := field 13%nat;
                    avatarUrl := field 14%nat;
                    isPro := is_true (field 15%nat) |};
               offer_location :=
                 {| latitude := Number (field 16%nat);
                    longitude := Number (field 17%nat) |} |}
      end
  end.

(** [rows.map(callback)]: the first exception of the callback ends it. *)
Fixpoint map_rows (rows : list jsstring) : completion (list RentOffer) :=
  match rows with
  | [] => Normal []
  | row :: rows' =>
      match parse_row row with
      | Throw e => Throw e
      | Normal o =>
          match map_rows rows' with
          | Throw e => Throw e
          | Normal os => Normal (o :: os)
          end
      end
  end.

Inductive event :=
| Log (message : jsstring)
| Error (message : jsstring) (error : jsstring).

(** [handleImportCommand(filepath)], given how [readFile] of the file
    completes. The [catch] block reports the error and swallows it. *)
Definition handleImportCommand (file : completion jsstring) : list event :=
  let failed e := [Error (js "Failed to import data:"%str) e] in
  match file with
  | Throw e => failed e
  | Normal content =>
      let rows := split LF content in
      match map_rows rows with
      | Throw e => failed e
      | Normal data =>
          [Log (PARTY ++ js " Data imported successfully!"%str);
           Log (js "Total offers imported: "%str
                ++ Generator.int_toString (Z.of_nat (length data)))]
      end
  end.

End Importer.

End Cli.

(** ** The streaming [import] command *)

Module ImportCommand.
Import JS.

(** What the command prints: [console.log], [console.error], and what the
    transform hands on (a [Push] goes to [process.stdout], a [Warning] to
    the error stream). *)
Inductive event :=
| Log (message : jsstring)
| Error (message : jsstring)
| Transformed (e : TSVTransform.event).

Inductive outcome :=
| Returned
| Thrown (error : jsstring).

(** [handleImportCommand(filepath)]. [source] is what the read stream of
    the file delivers: its chunks up to the end of the file, or the error it
    fails with before the first chunk (a file that cannot be opened). *)
Definition handleImportCommand (filepath : jsstring)
  (source : Generator.completion (list Buffer)) : list event * outcome :=
  let starting := Log (js "Starting import from "%str ++ filepath) in
  match source with
  | Generator.Normal chunks =>
      (starting :: map Transformed (TSVTransform.pipeline chunks)
       ++ [Log (LF :: PARTY ++ js " Data imported successfully!"%str)],
       Returned)
  | Generator.Throw error =>
      ([starting; Error (LF :: js "Failed to import data:"%str); Error error],
       Thrown error)
  end.

(** The lines written to [process.stdout]. *)
Definition stdout (evs : list event) : list jsstring :=
  flat_map (fun e => match e with
                     | Transformed (TSVTransform.Push d) => [d]
                     | _ => []
                     end) evs.

End ImportCommand.

(** ** More vocabulary for the properties *)

Module Vocabulary.
Import JS Generator.

(** [m] throws [e] from every position of the oracle. *)
Definition throws (A : Type) (m : M A) (e : jsstring) : Prop :=
  forall p, m p = Throw e.

(** No string of the dataset that reaches a row holds the code unit [c]. *)
Definition dataset_free (c : code_unit) (mockData : MockServerData) : Prop :=
  Forall (fun s => ~ In c s) (titles mockData)
  /\ Forall (fun s => ~ In c s) (descriptions mockData)
  /\ Forall (fun s => ~ In c s) (cities mockData)
  /\ Forall (fun s => ~ In c s) (previewImages mockData)
  /\ Forall (fun s => ~ In c s) (propertyTypes mockData)
  /\ Forall (fun s => ~ In c s) (features mockData)
  /\ Forall (fun u => ~ In c (name u) /\ ~ In c (email u)
                      /\ ~ In c (avatarUrl u)) (users mockData).

(** The values of the row of an offer, as [join] writes them. *)
Definition row_texts (o : Offer) : list jsstring :=
  map value_toString (row_values o).

(** The JSON line the transcoder makes of eighteen field texts. *)
Definition json_line (fields : list jsstring) : jsstring :=
  JSON_stringify (combine TSVTransform.columns (map Some fields)) ++ [LF].

(** A code unit that is no control character. *)
Definition printable (c : code_unit) : Prop := (32 <= c)%N.

(** The text of a push: some text without control characters, then one
    newline. *)
Definition one_line (data : jsstring) : Prop :=
  exists body, data = body ++ [LF] /\ Forall printable body.

(** Reading a JSON string back: the value of a hexadecimal digit, the
    character an escape letter stands for, and the text up to the closing
    quote with what follows it. *)
Definition unhex (h : code_unit) : N :=
  (if h <? 58 then h - 48 else h - 87)%N.

Definition unescape (e : code_unit) : code_unit :=
  (if e =? 98 then 8
   else if e =? 116 then 9
   else if e =? 110 then 10
   else if e =? 102 then 12
   else if e =? 114 then 13
   else e)%N.

Fixpoint read_string (s : jsstring) : jsstring * jsstring :=
  match s with
  | [] => ([], [])
  | c :: tl =>
      if (c =? 34)%N then ([], tl)
      else if (c =? 92)%N then
        match tl with
        | e :: tl' =>
            if (e =? 117)%N then
              match tl' with
              | h1 :: h2 :: h3 :: h4 :: tl'' =>
                  let (text, rest) := read_string tl'' in
                  ((unhex h1 * 4096 + unhex h2 * 256 + unhex h3 * 16
                    + unhex h4)%N :: text, rest)
              | _ => ([], [])
              end
            else
              let (text, rest) := read_string tl' in
              (unescape e :: text, rest)
        | [] => ([], [])
        end
      else
        let (text, rest) := read_string tl in (c :: text, rest)
  end.

(** A decimal digit, and a number written with six digits after the
    point. *)
Definition digit (c : code_unit) : Prop := (48 <= c <= 57)%N.

Definition six_decimals (text : jsstring) : Prop :=
  exists sign whole fraction,
    text = sign ++ whole ++ [46%N] ++ fraction
    /\ (sign = [] \/ sign = [45%N])
    /\ whole <> []
    /\ Forall digit whole
    /\ Forall digit fraction
    /\ length fraction = 6%nat.

(** A dataset with a city that has no coordinate entry, and one without
    users. *)
Definition no_coordinates_data : MockServerData :=
  {| titles := [js "Cozy Loft"%str];
     descriptions := [js "Nice place"%str];
     cities := [js "Paris"%str];
     previewImages := map js ["img1.jpg"; "img2.jpg"; "img3.jpg"]%str;
     propertyTypes := [js "apartment"%str];
     features := map js ["wifi"; "parking"]%str;
     users := [jane];
     coordinates := [] |}.

Definition no_users_data : MockServerData :=
  {| titles := [js "Cozy Loft"%str];
     descriptions := [js "Nice place"%str];
     cities := [js "Paris"%str];
     previewImages := map js ["img1.jpg"; "img2.jpg"; "img3.jpg"]%str;
     propertyTypes := [js "apartment"%str];
     features := map js ["wifi"; "parking"]%str;
     users := [];
     coordinates := [(js "Paris"%str, paris)] |}.

End Vocabulary.

(** * Properties *)

(** ** Splitting text into lines *)

Section Lines.
Import JS.

Variable sep : code_unit.

Lemma split_nonempty (s : jsstring) : split sep s <> [].
Proof.
  destruct s as [|c s]; simpl; [discriminate|].
  destruct (N.eqb c sep); [discriminate|].
  destruct (split sep s); discriminate.
Qed.

Lemma split_cons_sep (s : jsstring) : split sep (sep :: s) = [] :: split sep s.
Proof. simpl. now rewrite N.eqb_refl. Qed.

Lemma split_cons_other (c : code_unit) (s : jsstring) :
  c <> sep ->
  exists l ls, split sep s = l :: ls /\ split sep (c :: s) = (c :: l) :: ls.
Proof.
  intros Hc. simpl. apply N.eqb_neq in Hc. rewrite Hc.
  destruct (split sep s) as [|l ls] eqn:E.
  - now apply split_nonempty in E.
  - now exists l, ls.
Qed.

Lemma removelast_cons (A : Type) (x : A) (xs : list A) :
  xs <> [] -> removelast (x :: xs) = x :: removelast xs.
Proof. destruct xs; [congruence | reflexivity]. Qed.

Lemma last_cons (A : Type) (x d : A) (xs : list A) :
  xs <> [] -> last (x :: xs) d = last xs d.
Proof. destruct xs; [congruence | reflexivity]. Qed.

Lemma last_app_nonempty (A : Type) (xs ys : list A) (d : A) :
  ys <> [] -> last (xs ++ ys) d = last ys d.
Proof.
  intros H. induction xs as [|x xs IH]; [reflexivity|].
  rewrite <- app_comm_cons, last_cons; [exact IH|].
  destruct xs; [exact H | discriminate].
Qed.

(** Splitting a concatenation: the lines completed by the first part, then
    the split of its unfinished tail followed by the second part. *)
Lemma split_app (a b : jsstring) :
  split sep (a ++ b) =
  removelast (split sep a) ++ split sep (last (split sep a) [] ++ b).
Proof.
  induction a as [|c a IH]; [reflexivity|].
  destruct (N.eq_dec c sep) as [->|Hc].
  - rewrite <- app_comm_cons, !split_cons_sep, IH.
    rewrite removelast_cons, last_cons by apply split_nonempty.
    reflexivity.
  - destruct (split_cons_other a Hc) as (l & ls & E & E').
    destruct (split_cons_other (a ++ b) Hc) as (l2 & ls2 & E2 & E2').
    rewrite <- app_comm_cons, E2', E'.
    rewrite IH, E in E2.
    destruct ls as [|l' ls].
    + cbn [removelast last app] in E2 |- *.
      destruct (split_cons_other (l ++ b) Hc) as (l3 & ls3 & E3 & E3').
      rewrite E3'. rewrite E3 in E2. now inversion E2.
    + rewrite removelast_cons in E2 |- * by discriminate.
      rewrite last_cons in E2 |- * by discriminate.
      rewrite <- !app_comm_cons in E2 |- *. now inversion E2.
Qed.

Lemma split_no_sep (s : jsstring) : ~ In sep s -> split sep s = [s].
Proof.
  induction s as [|c s IH]; intros H; [reflexivity|].
  assert (Hc : c <> sep) by (intros ->; apply H; now left).
  destruct (split_cons_other s Hc) as (l & ls & E & E').
  rewrite IH in E by (intros Hs; apply H; now right).
  inversion E; subst. exact E'.
Qed.

Lemma split_line (l rest : jsstring) :
  ~ In sep l -> split sep (l ++ sep :: rest) = l :: split sep rest.
Proof.
  intros H. rewrite split_app, (split_no_sep _ H). cbn [removelast last app].
  induction l as [|c l IH]; [apply split_cons_sep|].
  assert (Hc : c <> sep) by (intros ->; apply H; now left).
  destruct (split_cons_other (l ++ sep :: rest) Hc) as (l2 & ls2 & E & E').
  rewrite <- app_comm_cons, E'.
  rewrite IH in E by (intros Hs; apply H; now right).
  now inversion E.
Qed.

Lemma split_length (s : jsstring) :
  length (split sep s) = S (count_occ N.eq_dec s sep).
Proof.
  induction s as [|c s IH]; [reflexivity|].
  destruct (N.eq_dec c sep) as [->|Hc].
  - rewrite split_cons_sep, count_occ_cons_eq by reflexivity.
    cbn [length]. now rewrite IH.
  - destruct (split_cons_other s Hc) as (l & ls & E & E').
    rewrite E', count_occ_cons_neq by assumption.
    rewrite E in IH. exact IH.
Qed.

(** The occurrences of a code unit in joined texts: those in the texts and
    those in the separators between them. *)
Lemma count_join (c : code_unit) (glue : jsstring) (xs : list jsstring) :
  count_occ N.eq_dec (join glue xs) c =
  (pred (length xs) * count_occ N.eq_dec glue c
   + list_sum (map (fun x => count_occ N.eq_dec x c) xs))%nat.
Proof.
  induction xs as [|x xs IH]; [reflexivity|].
  destruct xs as [|y xs].
  - cbn. lia.
  - change (join glue (x :: y :: xs)) with (x ++ glue ++ join glue (y :: xs)).
    rewrite !count_occ_app, IH.
    cbn [length pred map list_sum fold_right Nat.mul]. lia.
Qed.

Lemma split_pieces_no_sep (s : jsstring) :
  Forall (fun l => ~ In sep l) (split sep s).
Proof.
  induction s as [|c s IH]; [constructor; [intros []|constructor]|].
  destruct (N.eq_dec c sep) as [->|Hc].
  - rewrite split_cons_sep. constructor; [intros []|exact IH].
  - destruct (split_cons_other s Hc) as (l & ls & E & E').
    rewrite E'. rewrite E in IH. inversion IH; subst.
    constructor; [|assumption].
    intros [Heq|Hin]; [congruence|contradiction].
Qed.

End Lines.

(** ** The transcoder *)

Section Transcoder.
Import JS TSVTransform.

Lemma last_map_Some (A : Type) (xs : list A) (d : A) :
  xs <> [] -> last (map Some xs) None = Some (last xs d).
Proof.
  induction xs as [|x xs IH]; [congruence|]. intros _.
  destruct xs as [|y xs]; [reflexivity|].
  change (last (map Some (y :: xs)) None = Some (last (y :: xs) d)).
  now apply IH.
Qed.

Lemma or_empty_Some (s : jsstring) : or_empty (Some s) = s.
Proof. now destruct s. Qed.

Lemma pop_split (text : jsstring) :
  pop (split LF text) = (complete_lines text, Some (tail_line text)).
Proof.
  unfold pop, complete_lines, tail_line.
  now rewrite (@last_map_Some _ (split LF text) [] (@split_nonempty LF text)).
Qed.

(** One chunk: the lines completed by it are processed, what follows the
    last newline is kept. *)
Lemma transform_eq (st : state) (chunk : Buffer) :
  _transform st chunk =
  ({| remainder := tail_line (remainder st ++ toString chunk) |},
   flat_map transform_line (complete_lines (remainder st ++ toString chunk))).
Proof. unfold _transform. now rewrite pop_split, or_empty_Some. Qed.

Lemma complete_lines_app (a b : jsstring) :
  complete_lines (a ++ b) = complete_lines a ++ complete_lines (tail_line a ++ b).
Proof.
  unfold complete_lines, tail_line. rewrite split_app.
  apply removelast_app, split_nonempty.
Qed.

Lemma tail_line_app (a b : jsstring) :
  tail_line (a ++ b) = tail_line (tail_line a ++ b).
Proof.
  unfold tail_line. rewrite split_app.
  apply last_app_nonempty, split_nonempty.
Qed.

Lemma tail_line_no_LF (text : jsstring) : ~ In LF (tail_line text).
Proof.
  unfold tail_line.
  pose proof (split_pieces_no_sep LF text) as H.
  pose proof (@split_nonempty LF text) as Hne.
  destruct (exists_last Hne) as (ls & l & E). rewrite E in H |- *.
  rewrite last_last. apply Forall_app in H as [_ H]. now inversion H.
Qed.

Lemma tail_line_whole (text : jsstring) :
  ~ In LF text -> tail_line text = text.
Proof. intros H. unfold tail_line. now rewrite split_no_sep. Qed.

Lemma complete_lines_none (text : jsstring) :
  ~ In LF text -> complete_lines text = [].
Proof. intros H. unfold complete_lines. now rewrite split_no_sep. Qed.

(** A text is its complete lines, each followed by a newline, and then its
    tail. *)
Lemma text_lines_tail (text : jsstring) :
  text = flat_map (fun l => l ++ [LF]) (complete_lines text) ++ tail_line text.
Proof.
  unfold complete_lines, tail_line.
  induction text as [|c text IH]; [reflexivity|].
  destruct (N.eq_dec c LF) as [->|Hc].
  - rewrite split_cons_sep.
    rewrite removelast_cons, last_cons by apply split_nonempty.
    cbn [flat_map app]. f_equal. exact IH.
  - destruct (split_cons_other text Hc) as (l & ls & E & E').
    rewrite E'. rewrite E in IH. destruct ls as [|l' ls].
    + cbn [removelast last flat_map app] in IH |- *. f_equal. exact IH.
    + rewrite removelast_cons, last_cons in IH |- * by discriminate.
      cbn [flat_map] in IH |- *. rewrite <- !app_assoc in IH |- *.
      rewrite <- !app_comm_cons. f_equal. exact IH.
Qed.

(** The chunks of a stream, fed to a transcoder whose remainder holds no
    newline: the outcome is that of the decoded text after the remainder. *)
Lemma feed_eq (chunks : list Buffer) (st : state) :
  ~ In LF (remainder st) ->
  feed st chunks =
  ({| remainder := tail_line (remainder st ++ decoded chunks) |},
   flat_map transform_line (complete_lines (remainder st ++ decoded chunks))).
Proof.
  revert st. induction chunks as [|chunk chunks IH]; intros st H.
  - unfold decoded. simpl. rewrite app_nil_r.
    rewrite tail_line_whole, complete_lines_none by assumption.
    now destruct st.
  - cbn [feed]. rewrite transform_eq. cbv beta iota.
    rewrite IH by apply tail_line_no_LF. cbn [remainder].
    unfold decoded. cbn [map concat]. fold (decoded chunks).
    rewrite (app_assoc (remainder st)).
    rewrite (complete_lines_app (remainder st ++ toString chunk)).
    rewrite (tail_line_app (remainder st ++ toString chunk)).
    now rewrite flat_map_app.
Qed.

(** The whole stream in terms of the text it carries. *)
Lemma pipeline_eq (chunks : list Buffer) :
  pipeline chunks =
  flat_map transform_line (complete_lines (decoded chunks))
  ++ _flush {| remainder := tail_line (decoded chunks) |}.
Proof.
  unfold pipeline. rewrite feed_eq by (intros []). reflexivity.
Qed.

End Transcoder.

Section TranscoderClaims.
Import JS TSVTransform.

Lemma notIn_existsb (c : code_unit) (s : jsstring) :
  existsb (N.eqb c) s = false -> ~ In c s.
Proof.
  intros H Hin.
  assert (existsb (N.eqb c) s = true) as E
    by (apply existsb_exists; exists c; split; [exact Hin | apply N.eqb_refl]).
  congruence.
Qed.

(** With eighteen values the object built from the entries is the column
    names zipped with the values. *)
Lemma offer_zip (values : list jsstring) :
  length values = 18%nat -> offer values = combine columns (map Some values).
Proof.
  intros H.
  do 18 (destruct values as [|? values]; [discriminate H|]).
  destruct values; [reflexivity | discriminate H].
Qed.

(** The step on one line that is not blank and has eighteen fields. *)
Lemma transform_line_valid (line : jsstring) :
  trim line <> [] -> length (split TAB line) = 18%nat ->
  transform_line line =
  [Push (JSON_stringify (combine columns (map Some (split TAB line))) ++ [LF])].
Proof.
  intros Hblank Hlen. unfold transform_line.
  destruct (trim line) eqn:E; [congruence|]. cbn [truthy negb].
  change (length columns) with 18%nat. rewrite Hlen. cbn [Nat.eqb negb].
  unfold push_offer. now rewrite offer_zip.
Qed.

(** The step on one line that is not blank and has another number of
    fields. *)
Lemma transform_line_invalid (line : jsstring) :
  trim line <> [] -> length (split TAB line) <> 18%nat ->
  transform_line line =
  [Warning (js "Warning: Skipping invalid line: "%str ++ line)].
Proof.
  intros Hblank Hlen. unfold transform_line.
  destruct (trim line) eqn:E; [congruence|]. cbn [truthy negb].
  change (length columns) with 18%nat.
  apply Nat.eqb_neq in Hlen. now rewrite Hlen.
Qed.

Lemma complete_lines_line (l rest : jsstring) :
  ~ In LF l -> complete_lines (l ++ LF :: rest) = l :: complete_lines rest.
Proof.
  intros H. unfold complete_lines. rewrite split_line by assumption.
  apply removelast_cons, split_nonempty.
Qed.

Lemma tail_line_line (l rest : jsstring) :
  ~ In LF l -> tail_line (l ++ LF :: rest) = tail_line rest.
Proof.
  intros H. unfold tail_line. rewrite split_line by assumption.
  apply last_cons, split_nonempty.
Qed.

Lemma tail_line_terminated (text : jsstring) : tail_line (text ++ [LF]) = [].
Proof.
  rewrite tail_line_app.
  now rewrite (@tail_line_line (tail_line text) [] (tail_line_no_LF text)).
Qed.







(** The remainder survives chunk boundaries: text-level independence. Two
    streams whose chunks decode to the same text produce the same events. *)
Theorem same_text_same_output (chunks1 chunks2 : list Buffer) :
  decoded chunks1 = decoded chunks2 -> pipeline chunks1 = pipeline chunks2.
Proof. intros H. now rewrite !pipeline_eq, H. Qed.

Lemma same_text_same_output_example :
  pipeline [ascii_bytes "a"%str; ascii_bytes "b"%str]
  = pipeline [ascii_bytes "ab"%str].
Proof. apply same_text_same_output. vm_compute. reflexivity. Defined.

Lemma utf8_decode_ascii (bs : list N) :
  Forall (fun b => (b < 128)%N) bs ->
  flat_map utf16_encode (utf8_decode Idle bs) = bs.
Proof.
  induction 1 as [|b bs Hb _ IH]; [reflexivity|].
  cbn [utf8_decode utf8_step]. unfold utf8_lead.
  assert ((b <=? 127)%N = true) as -> by (apply N.leb_le; lia).
  cbn [app flat_map]. rewrite IH. unfold utf16_encode.
  assert ((b <? 65536)%N = true) as -> by (apply N.ltb_lt; lia).
  reflexivity.
Qed.

Lemma decoded_ascii (chunks : list Buffer) :
  Forall (fun b => (Byte.to_N b < 128)%N) (concat chunks) ->
  decoded chunks = map Byte.to_N (concat chunks).
Proof.
  unfold decoded. induction chunks as [|chunk chunks IH]; [reflexivity|].
  cbn [concat map]. intros H. apply Forall_app in H as [H1 H2].
  rewrite map_app, IH by assumption. f_equal.
  unfold toString. apply utf8_decode_ascii.
  now apply Forall_map.
Qed.

(** Byte-level independence for ASCII input: any two ways of cutting the
    same sequence of bytes below 128 into chunks give the same events. *)
Theorem ascii_chunking_independent (chunks1 chunks2 : list Buffer) :
  concat chunks1 = concat chunks2 ->
  Forall (fun b => (Byte.to_N b < 128)%N) (concat chunks1) ->
  pipeline chunks1 = pipeline chunks2.
Proof.
  intros Hsame Hascii. rewrite !pipeline_eq.
  rewrite !decoded_ascii by (try rewrite <- Hsame; assumption).
  now rewrite Hsame.
Qed.

Lemma ascii_chunking_independent_example :
  pipeline [example_chunk]
  = pipeline [firstn 21 example_chunk; skipn 21 example_chunk].
Proof.
  apply ascii_chunking_independent.
  - vm_compute. reflexivity.
  - apply Forall_forall. intros b Hb.
    apply N.ltb_lt.
    revert b Hb. apply Forall_forall. vm_compute.
    repeat constructor.
Defined.

(** C1 fails on the code: a chunk boundary inside a multi-byte character.
    The bytes C3 A9 (U+00E9) followed by seventeen tabs and a newline are a
    valid line; in one chunk the title is U+00E9, cut after the first byte
    each half decodes to U+FFFD and the pushed JSON differs. *)
Theorem chunk_boundary_inside_character :
  let first := [Byte.xc3] in
  let second := [Byte.xa9] ++ repeat Byte.x09 17 ++ [Byte.x0a] in
  let rest :=
    jsq "','description':'','city':'','previewImage':'','photos':'',"%str
    ++ jsq "'isPremium':'','rating':'','type':'','rooms':'','guests':'',"%str
    ++ jsq "'price':'','features':'','authorName':'','authorEmail':'',"%str
    ++ jsq "'authorAvatar':'','authorIsPro':'','latitude':'',"%str
    ++ jsq "'longitude':''}"%str ++ [LF] in
  pipeline [first ++ second] = [Push (jsq "{'title':'"%str ++ [233%N] ++ rest)]
  /\ pipeline [first; second]
     = [Push (jsq "{'title':'"%str ++ [65533%N; 65533%N] ++ rest)]
  /\ pipeline [first ++ second] <> pipeline [first; second].
Proof. vm_compute. repeat split. discriminate. Qed.

(** C4 fails on the code: the flush neither skips a blank remainder nor
    warns about one with the wrong number of fields. A remainder of one
    field is dropped without the warning the line step gives, and a
    remainder of seventeen tabs, which the line step skips as blank, is
    pushed as an object of eighteen empty strings. *)
Theorem flush_is_not_the_line_step :
  (_flush {| remainder := js "abc"%str |} = []
   /\ transform_line (js "abc"%str)
      = [Warning (js "Warning: Skipping invalid line: abc"%str)])
  /\ (transform_line (repeat TAB 17) = []
      /\ _flush {| remainder := repeat TAB 17 |}
         = [push_offer (repeat [] 18)]).
Proof. vm_compute. repeat split. Qed.

(** What the flush does, for every remainder: one JSON object and a newline
    when the remainder is non-empty and has eighteen tab-separated fields,
    nothing otherwise, and never a warning. *)
Lemma flush_eq (st : state) :
  _flush st =
  (if truthy (remainder st) && (length (split TAB (remainder st)) =? 18)%nat
   then [Push (JSON_stringify
                 (combine columns (map Some (split TAB (remainder st))))
               ++ [LF])]
   else [])
  /\ warnings (_flush st) = [].
Proof.
  unfold _flush. change (length columns) with 18%nat.
  destruct (truthy (remainder st)); [|now split].
  destruct (length (split TAB (remainder st)) =? 18)%nat eqn:E; [|now split].
  apply Nat.eqb_eq in E. unfold push_offer. rewrite offer_zip by assumption.
  now split.
Qed.

End TranscoderClaims.

(** ** The generator *)

Section Monad.
Import JS Generator.

Lemma returns_ret (A : Type) (a : A) (Q : A -> Prop) :
  Q a -> returns (ret a) Q.
Proof. intros H p. now exists a, p. Qed.

Lemma returns_bind (A B : Type) (m : M A) (k : A -> M B)
  (P : A -> Prop) (Q : B -> Prop) :
  returns m P -> (forall a, P a -> returns (k a) Q) -> returns (bind m k) Q.
Proof.
  intros Hm Hk p. destruct (Hm p) as (a & p1 & E & Ha).
  destruct (Hk a Ha p1) as (b & p2 & E2 & Hb).
  exists b, p2. unfold bind. now rewrite E.
Qed.

Lemma returns_bind_ret (A B : Type) (a : A) (k : A -> M B) (Q : B -> Prop) :
  returns (k a) Q -> returns (bind (ret a) k) Q.
Proof. intros H p. exact (H p). Qed.

Lemma returns_weaken (A : Type) (m : M A) (P Q : A -> Prop) :
  returns m P -> (forall a, P a -> Q a) -> returns m Q.
Proof.
  intros Hm HPQ p. destruct (Hm p) as (a & p1 & E & Ha).
  exists a, p1. auto.
Qed.

End Monad.

Section GeneratorProperties.
Import JS Generator.

Variable rnd : nat -> R.
Variable Array_sort :
  forall T : Type, (T -> T -> M R) -> list T -> M (list T).

(** [Math.random()] returns a number in [[0, 1)]. *)
Hypothesis rnd_range : forall p, (0 <= rnd p < 1)%R.

(** Sorting with a comparison function that returns normally returns a
    rearrangement of the array. *)
Hypothesis Array_sort_permutation :
  forall (T : Type) (comparefn : T -> T -> M R) (xs : list T),
    (forall a b, returns (comparefn a b) (fun _ => True)) ->
    returns (Array_sort comparefn xs) (fun ys => Permutation ys xs).

Lemma Math_random_range :
  returns (Math_random rnd) (fun u => (0 <= u < 1)%R).
Proof. intros p. exists (rnd p), (S p). split; [reflexivity|apply rnd_range]. Qed.

Lemma generateRandomNumber_range (min max : Z) :
  (min <= max)%Z ->
  returns (generateRandomNumber rnd min max) (fun z => (min <= z <= max)%Z).
Proof.
  intros Hmm. unfold generateRandomNumber.
  eapply returns_bind; [apply Math_random_range|]. intros u Hu.
  apply returns_ret.
  set (x := (u * (IZR max - IZR min + 1) + IZR min)%R).
  assert (IZR min <= IZR max)%R as Hle by now apply IZR_le.
  assert (IZR min <= x)%R as Hlo by (unfold x; nra).
  assert (x < IZR max + 1)%R as Hhi by (unfold x; nra).
  split.
  - now apply Zfloor_lub.
  - pose proof (Zfloor_bound x) as [Hb _].
    assert (IZR (Zfloor x) < IZR (max + 1))%R as Hlt
      by (rewrite plus_IZR; lra).
    apply lt_IZR in Hlt. lia.
Qed.

Lemma item_in (T : Type) (items : list T) (u : R) :
  (0 <= u < 1)%R ->
  picked items (item items (Zfloor (u * INR (length items)))).
Proof.
  intros Hu. destruct items as [|x0 rest].
  - unfold picked, item. cbn [length INR]. rewrite Rmult_0_r.
    assert (Zfloor 0 = 0%Z) as -> by (apply Zfloor_eq; simpl; lra).
    reflexivity.
  - unfold picked. remember (x0 :: rest) as items eqn:E.
    set (n := length items).
    assert (0 < INR n)%R as Hn
      by (apply lt_0_INR; unfold n; rewrite E; simpl; lia).
    set (x := (u * INR n)%R).
    assert (0 <= x)%R as Hlo by (unfold x; nra).
    assert (x < INR n)%R as Hhi by (unfold x; nra).
    pose proof (Zfloor_bound x) as [Hb _].
    assert (0 <= Zfloor x)%Z as H0 by (apply Zfloor_lub; simpl; lra).
    assert (Zfloor x < Z.of_nat n)%Z as Hlt.
    { apply lt_IZR. rewrite <- INR_IZR_INZ. lra. }
    unfold item. assert ((Zfloor x <? 0)%Z = false) as -> by lia.
    destruct (nth_error items (Z.to_nat (Zfloor x))) as [y|] eqn:Ey.
    + exists y. split; [reflexivity|]. eapply nth_error_In, Ey.
    + apply nth_error_None in Ey. fold n in Ey. lia.
Qed.

Lemma getRandomItem_picked (T : Type) (items : list T) :
  returns (getRandomItem rnd items) (picked items).
Proof.
  unfold getRandomItem.
  eapply returns_bind; [apply Math_random_range|]. intros u Hu.
  apply returns_ret. now apply item_in.
Qed.

Lemma getRandomItems_length (T : Type) (items : list T) (count : Z) :
  (0 <= count)%Z ->
  returns (getRandomItems rnd Array_sort items count)
    (fun ys => length ys = Nat.min (Z.to_nat count) (length items)
               /\ incl ys items).
Proof.
  intros Hc. unfold getRandomItems.
  eapply returns_bind.
  - apply Array_sort_permutation. intros a b.
    eapply returns_bind; [apply Math_random_range|]. intros u _.
    now apply returns_ret.
  - intros shuffled Hperm. apply returns_ret.
    unfold slice0. assert ((count <? 0)%Z = false) as -> by lia.
    split.
    + rewrite length_firstn. now rewrite (Permutation_length Hperm).
    + intros y Hy. apply (Permutation_in _ Hperm).
      rewrite <- (firstn_skipn (Z.to_nat count) shuffled).
      apply in_or_app. now left.
Qed.

End GeneratorProperties.

Section NumbersAsText.
Import JS Generator.

Lemma uint_digits_numeric (d : Decimal.uint) :
  Forall numeric (uint_digits d).
Proof.
  induction d; cbn [uint_digits]; constructor; try assumption;
    right; right; lia.
Qed.

Lemma decimal_numeric (n : N) : Forall numeric (decimal n).
Proof. apply uint_digits_numeric. Qed.

Lemma Forall_firstn_skipn (A : Type) (P : A -> Prop) (k : nat) (xs : list A) :
  Forall P xs -> Forall P (firstn k xs) /\ Forall P (skipn k xs).
Proof. intros H. rewrite <- (firstn_skipn k xs) in H. now apply Forall_app. Qed.

Lemma toFixed_numeric (x : R) (fractionDigits : nat) :
  Forall numeric (toFixed x fractionDigits).
Proof.
  unfold toFixed.
  set (m := repeat 48%N _ ++ decimal _).
  assert (Forall numeric m) as Hm.
  { unfold m. apply Forall_app. split; [|apply decimal_numeric].
    apply Forall_forall. intros c Hc. apply repeat_spec in Hc. subst.
    right; right; lia. }
  apply Forall_app. split.
  - destruct (Rlt_dec x 0); repeat constructor.
  - destruct fractionDigits; [exact Hm|].
    destruct (Forall_firstn_skipn (length m - S fractionDigits) Hm).
    repeat (apply Forall_app; split); try assumption.
    constructor; [right; now left | constructor].
Qed.

Lemma tenths_numeric (n : Z) : Forall numeric (tenths n).
Proof.
  unfold tenths. repeat (apply Forall_app; split); try apply decimal_numeric.
  constructor; [right; now left | constructor].
Qed.

Lemma numeric_no_tab (s : jsstring) : Forall numeric s -> no_tab s.
Proof.
  intros H Hin. rewrite Forall_forall in H. specialize (H _ Hin).
  unfold numeric, TAB in H. lia.
Qed.

Lemma int_toString_no_tab (z : Z) : no_tab (int_toString z).
Proof.
  apply numeric_no_tab. unfold int_toString.
  destruct (z <? 0)%Z; [constructor; [now left|]|]; apply decimal_numeric.
Qed.

Lemma bool_toString_no_tab (b : bool) : no_tab (bool_toString b).
Proof.
  apply notIn_existsb. now destruct b.
Qed.

(** Two digits and a point between them: the rating. *)
Lemma two_digits (n : Z) :
  (30 <= n <= 50)%Z ->
  let m := decimal (Z.to_N n) in
  let m := repeat 48%N (2 - length m) ++ m in
  firstn (length m - 1) m ++ [46%N] ++ skipn (length m - 1) m = tenths n.
Proof.
  intros Hn.
  assert (exists k, (k <= 20)%nat /\ n = (30 + Z.of_nat k)%Z) as (k & Hk & ->)
    by (exists (Z.to_nat (n - 30)); lia).
  do 21 (destruct k as [|k]; [reflexivity|]). lia.
Qed.

Lemma toFixed_rating (u : R) :
  (0 <= u < 1)%R ->
  exists n, (30 <= n <= 50)%Z /\ toFixed (u * 2 + 3) 1 = tenths n.
Proof.
  intros Hu. set (x := (u * 2 + 3)%R).
  exists (Zfloor (x * 10 ^ 1 + / 2)%R).
  assert (3 <= x < 5)%R as Hx by (unfold x; lra).
  assert (30 <= Zfloor (x * 10 ^ 1 + / 2) <= 50)%Z as Hn.
  { split.
    - apply Zfloor_lub. simpl. lra.
    - pose proof (Zfloor_bound (x * 10 ^ 1 + / 2)) as [Hb _].
      assert (IZR (Zfloor (x * 10 ^ 1 + / 2)) < IZR 51)%R as Hlt
        by (simpl in Hb |- *; lra).
      apply lt_IZR in Hlt. lia. }
  split; [exact Hn|].
  unfold toFixed. destruct (Rlt_dec x 0) as [Hneg|_]; [lra|].
  rewrite Rabs_pos_eq by lra. cbn [app].
  apply (two_digits Hn).
Qed.

End NumbersAsText.

Section LocationProperties.
Import JS Generator.
Local Open Scope R_scope.

Variable rnd : nat -> R.
Hypothesis rnd_range : forall p, 0 <= rnd p < 1.

(** The offset of the drawn location has length
    [sqrt v * |radius| / 111], which is at most [|radius| / 111]. *)
Lemma location_distance (center : Center.t) :
  returns (generateRandomLocation rnd (Some center))
    (fun location =>
       distance center location <= Rabs (Center.radius center) / 111).
Proof.
  unfold generateRandomLocation.
  eapply returns_bind; [apply (Math_random_range rnd rnd_range)|].
  intros u Hu.
  eapply returns_bind; [apply (Math_random_range rnd rnd_range)|].
  intros v Hv. apply returns_ret.
  unfold distance. cbn [Location.latitude Location.longitude].
  set (d := Center.radius center / 111).
  assert (Rabs (Center.radius center) / 111 = Rabs d) as ->.
  { unfold d, Rdiv. rewrite Rabs_mult, (Rabs_pos_eq (/ 111)); lra. }
  assert (0 <= sqrt v <= 1) as Hs.
  { split; [apply sqrt_pos|]. rewrite <- sqrt_1.
    apply sqrt_le_1_alt. lra. }
  set (r := sqrt v * d) in *.
  set (a := u * 2 * PI).
  replace ((Center.latitude center + r * cos a - Center.latitude center) ^ 2
           + (Center.longitude center + r * sin a
              - Center.longitude center) ^ 2)
    with (Rsqr r * ((sin a)² + (cos a)²)) by (unfold Rsqr; ring).
  rewrite sin2_cos2, Rmult_1_r, sqrt_Rsqr_abs.
  unfold r. rewrite Rabs_mult, (Rabs_pos_eq (sqrt v)) by lra.
  pose proof (Rabs_pos d). nra.
Qed.


End LocationProperties.

Section OfferProperties.
Import JS Generator.

Variable rnd : nat -> R.
Variable Array_sort :
  forall T : Type, (T -> T -> M R) -> list T -> M (list T).
Hypothesis rnd_range : forall p, (0 <= rnd p < 1)%R.
Hypothesis Array_sort_permutation :
  forall (T : Type) (comparefn : T -> T -> M R) (xs : list T),
    (forall a b, returns (comparefn a b) (fun _ => True)) ->
    returns (Array_sort comparefn xs) (fun ys => Permutation ys xs).

Lemma picked_some (T : Type) (items : list T) (v : option T) :
  items <> [] -> picked items v -> exists x, v = Some x /\ In x items.
Proof. destruct items; [congruence | now intros _ H]. Qed.

Tactic Notation "step" constr(lemma) "as" ident(x) ident(Hx) :=
  eapply returns_bind; [apply lemma | cbv beta; intros x Hx].

(** One iteration on a well-formed dataset completes normally, with an
    offer as [offer_spec] describes it. *)
Lemma make_offer_spec (mockData : MockServerData) :
  well_formed mockData ->
  returns (make_offer rnd Array_sort mockData) (offer_spec mockData).
Proof.
  intros (Husers & Hcities & Hcoords). unfold make_offer.
  pose proof (Math_random_range rnd rnd_range) as Hrandom.
  pose proof (generateRandomNumber_range rnd rnd_range) as Hnumber.
  pose proof (getRandomItem_picked rnd rnd_range) as Hitem.
  pose proof (getRandomItems_length rnd Array_sort rnd_range
                Array_sort_permutation) as Hitems.
  step (Hitem _ (cities mockData)) as city Hcity.
  destruct (@picked_some _ _ _ Hcities Hcity) as (c & -> & Hc).
  destruct (Hcoords c Hc) as (center & Hcenter).
  cbn [key_of]. rewrite Hcenter.
  step (location_distance rnd rnd_range center) as location Hlocation.
  step (Hnumber 3%Z 6%Z ltac:(lia)) as photosCount HphotosCount.
  step (Hitems _ (previewImages mockData) photosCount ltac:(lia)) as photos Hphotos.
  step (Hitem _ (users mockData)) as user Huser.
  destruct (@picked_some _ _ _ Husers Huser) as (u & -> & Hu).
  step (Hitem _ (titles mockData)) as title Htitle.
  step (Hitem _ (descriptions mockData)) as description Hdescription.
  step (Hitem _ (previewImages mockData)) as previewImage HpreviewImage.
  step Hrandom as isPremium HisPremium.
  step Hrandom as rating Hrating.
  step (Hitem _ (propertyTypes mockData)) as type' Htype.
  step (Hnumber 1%Z 5%Z ltac:(lia)) as rooms Hrooms.
  step (Hnumber 1%Z 10%Z ltac:(lia)) as guests Hguests.
  step (Hnumber 50%Z 1000%Z ltac:(lia)) as price Hprice.
  step (Hnumber 2%Z 6%Z ltac:(lia)) as featuresCount HfeaturesCount.
  step (Hitems _ (features mockData) featuresCount ltac:(lia)) as features' Hfeatures.
  cbn [user_get].
  do 4 apply returns_bind_ret.
  apply returns_ret. unfold offer_spec. cbn.
  destruct Hphotos as [Hphotos1 Hphotos2].
  destruct Hfeatures as [Hfeatures1 Hfeatures2].
  repeat (split; [assumption|]).
  split; [now exists photosCount, photos|].
  split; [now exists featuresCount, features'|].
  split; [now apply toFixed_rating|].
  repeat (split; [assumption|]).
  split; [now exists u|].
  now exists c, center, location.
Qed.

End OfferProperties.

Section Rows.
Import JS Generator.

Lemma no_tab_tabs (s : jsstring) : no_tab s <-> tabs s = 0%nat.
Proof. apply count_occ_not_In. Qed.

(** The fields of a line: eighteen, and one more for every tab inside a
    value. *)
Lemma line_field_count (o : Offer) :
  length (split TAB (line_of o)) =
  (18 + list_sum (map tabs (map value_toString (row_values o))))%nat.
Proof.
  unfold line_of. rewrite split_length, count_occ_app, count_join.
  rewrite length_map.
  change (length (row_values o)) with 18%nat.
  change (count_occ N.eq_dec [TAB] TAB) with 1%nat.
  change (count_occ N.eq_dec [LF] TAB) with 0%nat.
  change (fun x : list N => count_occ N.eq_dec x TAB) with tabs.
  cbn [pred]. rewrite Nat.add_0_r. reflexivity.
Qed.

Lemma picked_tabs (items : list jsstring) (v : option jsstring) :
  Forall no_tab items -> picked items v ->
  tabs (value_toString (of_option v)) = 0%nat.
Proof.
  intros Hall Hv. destruct items as [|x items].
  - cbn in Hv. now subst.
  - destruct Hv as (y & -> & Hy). cbn [of_option value_toString].
    apply no_tab_tabs. rewrite Forall_forall in Hall. now apply Hall.
Qed.

Lemma tabs_sum_zero (xs : list jsstring) :
  Forall no_tab xs -> list_sum (map tabs xs) = 0%nat.
Proof.
  induction 1 as [|x xs Hx _ IH]; [reflexivity|].
  change (tabs x + list_sum (map tabs xs) = 0)%nat.
  now rewrite IH, (proj1 (no_tab_tabs x) Hx).
Qed.

Lemma sample_tabs (items : list jsstring) (lo hi : Z) (text : jsstring) :
  Forall no_tab items -> sample_of items lo hi text -> tabs text = 0%nat.
Proof.
  intros Hall (count & sample & _ & -> & _ & Hincl).
  unfold tabs. rewrite count_join.
  change (count_occ N.eq_dec [SEMICOLON] TAB) with 0%nat.
  change (fun x : list N => count_occ N.eq_dec x TAB) with tabs.
  rewrite Nat.mul_0_r, tabs_sum_zero; [reflexivity|].
  rewrite Forall_forall in Hall |- *. intros x Hx. apply Hall, Hincl, Hx.
Qed.

(** The tabs in the values of a row are those of the title when the other
    collections of the dataset hold none. *)
Lemma row_tabs_title (mockData : MockServerData) (o : Offer) :
  tab_free_but_titles mockData -> offer_spec mockData o ->
  list_sum (map tabs (map value_toString (row_values o)))
  = tabs (value_toString (of_option (offer_title o))).
Proof.
  intros (Tdescriptions & Tcities & Timages & Ttypes & Tfeatures & Tusers)
         (Htitle & Hdescription & Himage & Htype & Hphotos & Hfeatures
          & (n & _ & Hrating) & _ & _ & _
          & (u & Hu & Hname & Hemail & Havatar & _)
          & (c & center & location & Hcity & Hc & _ & _ & Hlat & Hlon)).
  rewrite Forall_forall in Tusers. destruct (Tusers u Hu) as (Tn & Te & Ta).
  rewrite Forall_forall in Tcities.
  cbn [row_values map list_sum fold_right value_toString].
  rewrite (@picked_tabs _ _ Tdescriptions Hdescription),
    (@picked_tabs _ _ Timages Himage), (@picked_tabs _ _ Ttypes Htype),
    (@sample_tabs _ _ _ _ Timages Hphotos),
    (@sample_tabs _ _ _ _ Tfeatures Hfeatures).
  rewrite Hcity, Hname, Hemail, Havatar, Hlat, Hlon, Hrating.
  cbn [of_option value_toString].
  rewrite (proj1 (no_tab_tabs _) (Tcities c Hc)).
  rewrite (proj1 (no_tab_tabs _) Tn), (proj1 (no_tab_tabs _) Te),
    (proj1 (no_tab_tabs _) Ta).
  rewrite !(proj1 (no_tab_tabs _) (bool_toString_no_tab _)).
  rewrite !(proj1 (no_tab_tabs _) (int_toString_no_tab _)).
  rewrite !(proj1 (no_tab_tabs _) (numeric_no_tab (toFixed_numeric _ _))).
  rewrite (proj1 (no_tab_tabs _) (numeric_no_tab (tenths_numeric n))).
  cbn [Nat.add]. apply Nat.add_0_r.
Qed.

(** On a tab-free dataset no value of the row holds a tab. *)
Lemma row_tabs (mockData : MockServerData) (o : Offer) :
  tab_free mockData -> offer_spec mockData o ->
  list_sum (map tabs (map value_toString (row_values o))) = 0%nat.
Proof.
  intros (Ttitles & Trest) Ho. rewrite (@row_tabs_title _ _ Trest Ho).
  destruct Ho as (Htitle & _). exact (@picked_tabs _ _ Ttitles Htitle).
Qed.

End Rows.

Section Instances.
Import JS Generator.

Lemma rnd_zero_range : forall p, (0 <= rnd_zero p < 1)%R.
Proof. intros p. unfold rnd_zero. lra. Defined.

Lemma sort_keep_permutation :
  forall (T : Type) (comparefn : T -> T -> M R) (xs : list T),
    (forall a b, returns (comparefn a b) (fun _ => True)) ->
    returns (sort_keep comparefn xs) (fun ys => Permutation ys xs).
Proof.
  intros T comparefn xs _ p. exists xs, p. split; [reflexivity|].
  apply Permutation_refl.
Defined.

Lemma dataset_well_formed (titles previewImages : list jsstring) :
  well_formed (dataset titles previewImages).
Proof.
  repeat split; try discriminate.
  intros city [<-|[]]. now exists paris.
Defined.

Lemma sample_data_tab_free : tab_free sample_data.
Proof.
  unfold tab_free, tab_free_but_titles, sample_data, dataset.
  cbn [titles descriptions cities previewImages propertyTypes features
       users map].
  repeat split; repeat constructor;
    try (apply notIn_existsb; vm_compute; reflexivity).
Defined.

End Instances.

Section GeneratorClaims.
Import JS Generator.

Variable rnd : nat -> R.
Variable Array_sort :
  forall T : Type, (T -> T -> M R) -> list T -> M (list T).
Hypothesis rnd_range : forall p, (0 <= rnd p < 1)%R.
Hypothesis Array_sort_permutation :
  forall (T : Type) (comparefn : T -> T -> M R) (xs : list T),
    (forall a b, returns (comparefn a b) (fun _ => True)) ->
    returns (Array_sort comparefn xs) (fun ys => Permutation ys xs).

Variable mockData : MockServerData.
Hypothesis mockData_well_formed : well_formed mockData.

Lemma pull_from (count : Z) (n : nat) :
  tab_free mockData ->
  forall g, (0 <= i g)%Z ->
  exists lines g',
    pull rnd Array_sort mockData count n g
    = Normal (map Some lines
              ++ repeat None (n - Z.to_nat (count - i g)), g')
    /\ length lines = Nat.min n (Z.to_nat (count - i g))
    /\ Forall row_line lines.
Proof.
  intros Htabs. induction n as [|n IH]; intros g Hg.
  - exists [], g. repeat split. constructor.
  - cbn [pull]. unfold next. destruct (i g <? count)%Z eqn:E.
    + apply Z.ltb_lt in E.
      destruct (@make_offer_spec rnd Array_sort rnd_range
                  Array_sort_permutation mockData mockData_well_formed
                  (position g))
        as (o & p' & Eo & Ho).
      rewrite Eo.
      destruct (IH {| i := i g + 1; position := p' |}) as
        (lines & g' & Epull & Hlen & Hlines); [cbn [i]; lia|].
      rewrite Epull. cbn [i] in *.
      exists (line_of o :: lines), g'. split; [|split].
      * replace (S n - Z.to_nat (count - i g))%nat
          with (n - Z.to_nat (count - (i g + 1)))%nat by lia.
        reflexivity.
      * cbn [length]. rewrite Hlen. lia.
      * constructor; [|exact Hlines]. split.
        -- eexists. reflexivity.
        -- rewrite line_field_count, (@row_tabs mockData o Htabs Ho). reflexivity.
    + apply Z.ltb_ge in E.
      destruct (IH g Hg) as (lines & g' & Epull & Hlen & Hlines).
      rewrite Epull.
      assert (Z.to_nat (count - i g) = 0%nat) as Hz by lia.
      rewrite Hz in *. rewrite Nat.min_0_r in Hlen.
      destruct lines; [|discriminate Hlen].
      exists [], g'. repeat split; [|constructor].
      cbn [map app]. now rewrite !Nat.sub_0_r.
Qed.

(** C5 (as amended): on a dataset whose strings hold no tab, [n] pulls of
    the generator return the first [min n count] lines, one per pull, and
    report the end on every later pull; each line ends with a newline and
    has exactly eighteen tab-separated fields. *)
Theorem generateOffers_lines (count : Z) (n position : nat) :
  tab_free mockData ->
  exists lines g,
    pull rnd Array_sort mockData count n (generateOffers_start position)
    = Normal (map Some lines ++ repeat None (n - Z.to_nat count), g)
    /\ length lines = Nat.min n (Z.to_nat count)
    /\ Forall row_line lines.
Proof.
  intros Htabs.
  destruct (@pull_from count n Htabs (generateOffers_start position))
    as (lines & g & E & Hlen & Hlines); [cbn; lia|].
  cbn [generateOffers_start i] in *. rewrite Z.sub_0_r in *.
  now exists lines, g.
Qed.


End GeneratorClaims.

Section GeneratorInstances.
Import JS Generator.

Lemma generateOffers_lines_example :
  exists lines g,
    pull rnd_zero sort_keep sample_data 2 3 (generateOffers_start 0)
    = Normal (map Some lines ++ repeat None (3 - Z.to_nat 2), g)
    /\ length lines = Nat.min 3 (Z.to_nat 2)
    /\ Forall row_line lines.
Proof.
  exact (@generateOffers_lines rnd_zero sort_keep rnd_zero_range
           sort_keep_permutation sample_data (dataset_well_formed _ _)
           2%Z 3%nat 0%nat sample_data_tab_free).
Defined.

(** C5 as stated fails: a title with a tab in it gives a line of nineteen
    tab-separated fields. *)
Lemma tab_in_title_adds_field :
  exists line g,
    next rnd_zero sort_keep tabbed_data 1 (generateOffers_start 0)
    = Normal (Some line, g)
    /\ length (split TAB line) = 19%nat.
Proof.
  destruct (@make_offer_spec rnd_zero sort_keep rnd_zero_range
              sort_keep_permutation tabbed_data (dataset_well_formed _ _) 0%nat)
    as (o & p & E & Ho).
  exists (line_of o), {| i := 1; position := p |}.
  unfold next. cbn [generateOffers_start i position Z.ltb Z.compare].
  rewrite E. split; [reflexivity|].
  rewrite line_field_count, (@row_tabs_title tabbed_data o).
  - destruct Ho as ((t & -> & [<-|[]]) & _). reflexivity.
  - unfold tab_free_but_titles, tabbed_data, dataset.
    cbn [descriptions cities previewImages propertyTypes features users map].
    repeat split; repeat constructor;
      try (apply notIn_existsb; vm_compute; reflexivity).
  - exact Ho.
Qed.




End GeneratorInstances.

(** ** The non-streaming importer *)

Section LegacyImporter.
Import JS Cli.

Variable number : Type.
Variable Number : option jsstring -> number.

Lemma parse_row_cases (row : jsstring) :
  parse_row Number row = Throw TypeError_split
  \/ exists o, parse_row Number row = Normal o.
Proof.
  unfold parse_row.
  destruct (nth_error (split TAB row) 4); [|now left].
  destruct (nth_error (split TAB row) 11); [|now left].
  right. now eexists.
Qed.

Lemma parse_row_short (row : jsstring) :
  (length (split TAB row) < 5)%nat ->
  parse_row Number row = Throw TypeError_split.
Proof.
  intros H. unfold parse_row.
  assert (nth_error (split TAB row) 4 = None) as ->
    by (apply nth_error_None; lia).
  reflexivity.
Qed.

(** A row that throws makes the whole [map] throw: every exception of the
    callback is the same [TypeError]. *)
Lemma map_rows_throws (rows : list jsstring) (row : jsstring) :
  In row rows -> parse_row Number row = Throw TypeError_split ->
  map_rows Number rows = Throw TypeError_split.
Proof.
  intros Hin Hrow. induction rows as [|r rows IH]; [destruct Hin|].
  cbn [map_rows].
  destruct (parse_row_cases r) as [->|[o Eo]]; [reflexivity|].
  rewrite Eo. destruct Hin as [->|Hin]; [congruence|].
  now rewrite IH.
Qed.

(** When the last row is short the [map] throws, whatever the rows before
    it are. *)
Lemma map_rows_last_short (content : jsstring) :
  (length (split TAB (last (split LF content) [])) < 5)%nat ->
  map_rows Number (split LF content) = Throw TypeError_split.
Proof.
  intros H.
  apply (@map_rows_throws (split LF content) (last (split LF content) [])).
  - destruct (exists_last (@split_nonempty LF content)) as (rows & row & E).
    rewrite E, last_last. apply in_or_app. right. now left.
  - now apply parse_row_short.
Qed.

(** C10: when the last row of the file has fewer than five tab-separated
    fields, the importer ends in its [catch] block with the [TypeError] of
    [photos.split] and reports a failure, and nothing else. *)
Theorem legacy_import_fails (content : jsstring) :
  (length (split TAB (last (split LF content) [])) < 5)%nat ->
  handleImportCommand Number (Normal content)
  = [Error (js "Failed to import data:"%str) TypeError_split].
Proof.
  intros H. unfold handleImportCommand.
  now rewrite (map_rows_last_short content H).
Qed.

(** In particular on every file that ends with a newline. *)
Lemma legacy_import_fails_on_terminated_file (text : jsstring) :
  handleImportCommand Number (Normal (text ++ [LF]))
  = [Error (js "Failed to import data:"%str) TypeError_split].
Proof.
  unfold handleImportCommand. rewrite map_rows_last_short; [reflexivity|].
  change (last (split LF (text ++ [LF])) [])
    with (TSVTransform.tail_line (text ++ [LF])).
  rewrite tail_line_terminated. cbn. lia.
Qed.

(** And on every file the generator writes: lines that each end with a
    newline, or nothing at all. *)
Lemma legacy_import_fails_on_generated_file (lines : list jsstring) :
  Forall Generator.row_line lines ->
  handleImportCommand Number (Normal (concat lines))
  = [Error (js "Failed to import data:"%str) TypeError_split].
Proof.
  intros H. destruct lines as [|l ls] using rev_ind.
  - unfold handleImportCommand.
    rewrite map_rows_last_short; [reflexivity | cbn; lia].
  - apply Forall_app in H as [_ H]. inversion H as [|? ? [[row ->] _] _].
    rewrite concat_app. cbn [concat]. rewrite app_nil_r, app_assoc.
    apply legacy_import_fails_on_terminated_file.
Qed.

End LegacyImporter.

(** The file of the specification's example for the old importer, with
    numbers left as text. *)
Lemma legacy_import_fails_example :
  Cli.handleImportCommand (fun v => v)
    (Cli.Normal (TSVTransform.example_line ++ [JS.LF]))
  = [Cli.Error (JS.js "Failed to import data:"%str) Cli.TypeError_split].
Proof.
  apply (@legacy_import_fails (option JS.jsstring) (fun v => v)).
  vm_compute. lia.
Defined.

(** ** [Promise.all] *)

Section PromiseAll.
Import JS Promise.

Variable A : Type.
Variable promises : list (settled A).

Lemma length_set_nth (T : Type) (xs : list T) (index : nat) (x : T) :
  length (set_nth xs index x) = length xs.
Proof.
  revert index. induction xs as [|y xs IH]; intros [|k]; cbn; auto.
Qed.

Lemma nth_error_set_nth (T : Type) (xs : list T) (index k : nat) (x : T) :
  nth_error (set_nth xs index x) k =
  if (index =? k)%nat && (index <? length xs)%nat then Some x
  else nth_error xs k.
Proof.
  revert index k. induction xs as [|y xs IH]; intros [|i] [|k]; cbn; auto.
  now rewrite Bool.andb_false_r.
Qed.

Lemma all_after_app (order1 order2 : list nat) :
  all_after promises (order1 ++ order2) =
  fold_left
    (fun st index =>
       match nth_error promises index with
       | Some r => on_settled st index r
       | None => st
       end)
    order2 (all_after promises order1).
Proof. unfold all_after. apply fold_left_app. Qed.

Lemma valid_indices_bound (indices : list nat) :
  NoDup indices ->
  (forall index, In index indices -> index < length promises)%nat ->
  (length indices <= length promises)%nat.
Proof.
  intros Hnd Hlt. rewrite <- (length_seq (length promises) 0).
  apply NoDup_incl_length; [exact Hnd|].
  intros x Hx. apply in_seq. specialize (Hlt x Hx). lia.
Qed.

Lemma all_fulfilled_valid (indices : list nat) :
  all_fulfilled promises indices ->
  forall index, In index indices -> (index < length promises)%nat.
Proof.
  intros [_ H] index Hin. destruct (H index Hin) as [v Hv].
  apply nth_error_Some. congruence.
Qed.

(** While distinct elements fulfil, one after the other: their values are
    stored, the counter goes down by one each, and the combined promise
    stays pending until the last element, where it fulfils. *)
Lemma all_after_fulfilled (done : list nat) :
  all_fulfilled promises done ->
  let st := all_after promises done in
  length (values st) = length promises
  /\ remainingElementsCount st = (length promises - length done)%nat
  /\ (forall k, (k < length promises)%nat ->
        nth_error (values st) k =
        Some (if existsb (Nat.eqb k) done then fulfilled_value promises k
              else None))
  /\ result st =
     if (length done <? length promises)%nat then None
     else Some (Fulfilled (present (values st))).
Proof.
  induction done as [|j d IH] using rev_ind; intros Hall.
  - cbn. rewrite repeat_length, Nat.sub_0_r. repeat split.
    + intros k Hk. apply nth_error_repeat. exact Hk.
    + destruct (length promises); reflexivity.
  - pose proof (all_fulfilled_valid Hall) as Hvalid.
    pose proof (valid_indices_bound (proj1 Hall) Hvalid) as Hbound.
    rewrite length_app in Hbound. cbn [length] in Hbound.
    destruct Hall as [Hnd Hful].
    apply NoDup_remove in Hnd as [Hnd Hj]. rewrite app_nil_r in Hnd, Hj.
    destruct (Hful j) as [v Hv]; [apply in_or_app; right; now left|].
    assert (j < length promises)%nat as Hjn
      by (apply Hvalid, in_or_app; right; now left).
    destruct IH as (Hlen & Hrem & Hval & Hres).
    { split; [exact Hnd|]. intros k Hk. apply Hful, in_or_app. now left. }
    rewrite all_after_app. cbn [fold_left]. rewrite Hv.
    set (st := all_after promises d) in *.
    assert (existsb (Nat.eqb j) d = false) as Hnot.
    { destruct (existsb (Nat.eqb j) d) eqn:E; [|reflexivity].
      apply existsb_exists in E as (x & Hx & Exj).
      apply Nat.eqb_eq in Exj. now subst. }
    unfold on_settled. rewrite (Hval j Hjn), Hnot.
    cbn [values remainingElementsCount result].
    rewrite length_set_nth, length_app. cbn [length].
    split; [exact Hlen|]. split; [rewrite Hrem; lia|]. split.
    + intros k Hk. rewrite nth_error_set_nth, Hlen, existsb_app.
      cbn [existsb]. rewrite Bool.orb_false_r.
      assert ((j <? length promises)%nat = true) as -> by now apply Nat.ltb_lt.
      rewrite Bool.andb_true_r, (Nat.eqb_sym k j).
      destruct (j =? k)%nat eqn:E.
      * apply Nat.eqb_eq in E. subst k.
        rewrite Bool.orb_true_r. unfold fulfilled_value. now rewrite Hv.
      * rewrite Bool.orb_false_r. now apply Hval.
    + rewrite Hres, Hrem.
      assert ((length d <? length promises)%nat = true) as ->
        by (apply Nat.ltb_lt; lia).
      destruct (pred (length promises - length d)) eqn:E.
      * assert ((length d + 1 <? length promises)%nat = false) as ->
          by (apply Nat.ltb_ge; lia).
        reflexivity.
      * assert ((length d + 1 <? length promises)%nat = true) as ->
          by (apply Nat.ltb_lt; lia).
        reflexivity.
Qed.

(** A settled combined promise stays as it is. *)
Lemma result_settled (order : list nat) (st : all_state A)
  (r : settled (list A)) :
  result st = Some r ->
  result
    (fold_left
       (fun st index =>
          match nth_error promises index with
          | Some r => on_settled st index r
          | None => st
          end)
       order st) = Some r.
Proof.
  revert st. induction order as [|j order IH]; intros st H; [exact H|].
  cbn [fold_left]. apply IH.
  destruct (nth_error promises j) as [[v|e]|]; [| |exact H].
  - unfold on_settled.
    destruct (nth_error (values st) j) as [[w|]|]; try exact H.
    cbn [result]. destruct (pred (remainingElementsCount st)); [|exact H].
    now rewrite H.
  - unfold on_settled. cbn [result]. now rewrite H.
Qed.

(** All elements fulfil: the combined promise is pending while one of them
    is outstanding and fulfils with all the values, in the order of the
    elements, when the last one has fulfilled. *)
Lemma all_fulfils (vs : list A) (order : list nat) :
  promises = map (@Fulfilled A) vs ->
  Permutation order (seq 0 (length promises)) ->
  all promises order = Some (Fulfilled vs)
  /\ forall done later,
       order = done ++ later -> later <> [] -> all promises done = None.
Proof.
  intros Hvs Hperm.
  assert (NoDup order) as Hnd
    by (apply (Permutation_NoDup (Permutation_sym Hperm)), seq_NoDup).
  assert (forall index, In index order -> index < length promises)%nat
    as Hvalid.
  { intros index Hin. apply (Permutation_in _ Hperm) in Hin.
    apply in_seq in Hin. lia. }
  assert (forall indices, NoDup indices -> incl indices order ->
                          all_fulfilled promises indices) as Hall.
  { intros indices Hnd' Hincl. split; [exact Hnd'|]. intros index Hin.
    specialize (Hvalid index (Hincl index Hin)).
    rewrite Hvs in Hvalid |- *. rewrite length_map in Hvalid.
    destruct (nth_error vs index) as [v|] eqn:E.
    - exists v. now rewrite nth_error_map, E.
    - apply nth_error_None in E. lia. }
  split.
  - destruct (all_after_fulfilled (Hall order Hnd (incl_refl _)))
      as (Hlen & _ & Hval & Hres).
    unfold all. rewrite Hres.
    rewrite (Permutation_length Hperm), length_seq, Nat.ltb_irrefl.
    do 2 f_equal.
    assert (values (all_after promises order) = map Some vs) as ->.
    { apply nth_error_ext. intros k.
      destruct (Nat.lt_ge_cases k (length promises)) as [Hk|Hk].
      - rewrite (Hval k Hk).
        assert (existsb (Nat.eqb k) order = true) as ->.
        { apply existsb_exists. exists k. split; [|apply Nat.eqb_refl].
          apply (Permutation_in _ (Permutation_sym Hperm)), in_seq. lia. }
        unfold fulfilled_value. rewrite Hvs, !nth_error_map.
        destruct (nth_error vs k) eqn:E; [reflexivity|].
        apply nth_error_None in E. rewrite Hvs, length_map in Hk. lia.
      - rewrite (proj2 (nth_error_None _ _)) by lia.
        symmetry. apply nth_error_None.
        rewrite length_map. rewrite Hvs, length_map in Hk. exact Hk. }
    clear. induction vs as [|v vs IH]; [reflexivity|].
    cbn. f_equal. exact IH.
  - intros done later -> Hlater.
    assert (NoDup done) as Hnd' by (now apply NoDup_app_remove_r in Hnd).
    destruct (all_after_fulfilled
                (Hall done Hnd' (fun x Hx => in_or_app _ _ _ (or_introl Hx))))
      as (_ & _ & _ & Hres).
    unfold all. rewrite Hres.
    assert (length (done ++ later) = length promises) as Hlen
      by (now rewrite (Permutation_length Hperm), length_seq).
    rewrite length_app in Hlen.
    assert (length later <> 0)%nat by (destruct later; cbn; congruence).
    assert ((length done <? length promises)%nat = true) as ->
      by (apply Nat.ltb_lt; lia).
    reflexivity.
Qed.

(** One element rejects: the combined promise rejects, with the reason of
    the element that is the first to reject, and no later settlement
    changes that. *)
Lemma all_rejects (order : list nat) :
  NoDup order ->
  (forall index, In index order -> index < length promises)%nat ->
  (exists index e, In index order
                   /\ nth_error promises index = Some (Rejected e)) ->
  exists before index later e,
    order = before ++ index :: later
    /\ all_fulfilled promises before
    /\ nth_error promises index = Some (Rejected e)
    /\ all promises before = None
    /\ all promises order = Some (Rejected e).
Proof.
  intros Hnd Hvalid Hrej.
  assert (exists before index later e,
             order = before ++ index :: later
             /\ (forall k, In k before ->
                   exists v, nth_error promises k = Some (Fulfilled v))
             /\ nth_error promises index = Some (Rejected e))
    as (before & index & later & e & -> & Hful & He).
  { clear Hnd. induction order as [|j order IH].
    - destruct Hrej as (? & ? & [] & _).
    - destruct (nth_error promises j) as [[v|e]|] eqn:Ej.
      + destruct IH as (before & index & later & e & -> & Hful & He).
        * intros k Hk. apply Hvalid. now right.
        * destruct Hrej as (k & e & [<-|Hk] & Hke); [congruence|].
          now exists k, e.
        * exists (j :: before), index, later, e. repeat split; auto.
          intros k [<-|Hk]; [now exists v | now apply Hful].
      + exists [], j, order, e. repeat split; auto. intros k [].
      + apply nth_error_None in Ej.
        specialize (Hvalid j (or_introl eq_refl)). lia. }
  exists before, index, later, e.
  assert (all_fulfilled promises before) as Hall.
  { split; [now apply NoDup_app_remove_r in Hnd | exact Hful]. }
  assert (length before < length promises)%nat as Hshort.
  { assert (length (before ++ [index]) <= length promises)%nat as H.
    { apply valid_indices_bound.
      - replace (before ++ index :: later) with ((before ++ [index]) ++ later)
          in Hnd by (now rewrite <- app_assoc).
        now apply NoDup_app_remove_r in Hnd.
      - intros k Hk. apply Hvalid. apply in_app_or in Hk as [Hk|[<-|[]]];
          apply in_or_app; [now left | right; now left]. }
    rewrite length_app in H. cbn in H. lia. }
  destruct (all_after_fulfilled Hall) as (_ & _ & _ & Hres).
  apply Nat.ltb_lt in Hshort. rewrite Hshort in Hres.
  split; [reflexivity|]. split; [exact Hall|]. split; [exact He|].
  split; [exact Hres|].
  unfold all. rewrite all_after_app. cbn [fold_left]. rewrite He.
  apply result_settled. unfold on_settled. cbn [result]. now rewrite Hres.
Qed.

End PromiseAll.

(** ** The write loop *)

Section WriteLoop.
Import JS Generator Generate.

Variable rnd : nat -> R.
Variable Array_sort :
  forall T : Type, (T -> T -> M R) -> list T -> M (list T).
Hypothesis rnd_range : forall p, (0 <= rnd p < 1)%R.
Hypothesis Array_sort_permutation :
  forall (T : Type) (comparefn : T -> T -> M R) (xs : list T),
    (forall a b, returns (comparefn a b) (fun _ => True)) ->
    returns (Array_sort comparefn xs) (fun ys => Permutation ys xs).

Variable mockData : MockServerData.
Hypothesis mockData_well_formed : well_formed mockData.

(** With more pulls allowed than lines are left, the loop over the
    generator writes every remaining line and returns. *)
Lemma for_await_returns (count : Z) (filepath : jsstring) (fuel : nat) :
  forall g, (0 <= i g)%Z -> (Z.to_nat (count - i g) < fuel)%nat ->
  exists lines,
    for_await rnd Array_sort mockData count filepath fuel g
    = (map (Write filepath) lines, Returned)
    /\ length lines = Z.to_nat (count - i g).
Proof.
  induction fuel as [|fuel IH]; intros g Hg Hfuel; [lia|].
  cbn [for_await]. unfold next. destruct (i g <? count)%Z eqn:E.
  - apply Z.ltb_lt in E.
    destruct (@make_offer_spec rnd Array_sort rnd_range
                Array_sort_permutation mockData mockData_well_formed
                (position g))
      as (o & p' & Eo & _).
    rewrite Eo.
    destruct (IH {| i := i g + 1; position := p' |}) as (lines & El & Hlen);
      [cbn [i]; lia | cbn [i]; lia |].
    rewrite El. exists (line_of o :: lines). split; [reflexivity|].
    cbn [length i] in *. lia.
  - apply Z.ltb_ge in E. exists []. split; [reflexivity|]. cbn. lia.
Qed.

End WriteLoop.

(** ** The [generate] command *)

Section GenerateCommand.
Import JS Generator Promise Generate.

Variable payload : Type.
Variable as_strings : payload -> list jsstring.
Variable as_users : payload -> list user.
Variable as_coordinates : payload -> list (jsstring * Center.t).
Variable got : jsstring -> settled payload.
Variable rnd : nat -> R.
Variable Array_sort :
  forall T : Type, (T -> T -> M R) -> list T -> M (list T).

Lemma requests_app (evs1 evs2 : list event) :
  requests (evs1 ++ evs2) = requests evs1 ++ requests evs2.
Proof. apply flat_map_app. Qed.

Lemma requests_gets (urls : list jsstring) : requests (map Get urls) = urls.
Proof.
  induction urls as [|u urls IH]; [reflexivity|].
  cbn. f_equal. exact IH.
Qed.

(** The write loop requests nothing. *)
Lemma for_await_requests (mockData : MockServerData) (count : Z)
  (filepath : jsstring) (fuel : nat) (g : generator) :
  requests (fst (for_await rnd Array_sort mockData count filepath fuel g))
  = [].
Proof.
  revert g. induction fuel as [|fuel IH]; intros g; [reflexivity|].
  cbn [for_await].
  destruct (next rnd Array_sort mockData count g) as [[[line|] g']|e];
    try reflexivity.
  specialize (IH g').
  destruct (for_await rnd Array_sort mockData count filepath fuel g').
  exact IH.
Qed.

Lemma request_urls_length (url : jsstring) :
  length (request_urls url) = 8%nat.
Proof. unfold request_urls. now rewrite length_map. Qed.


End GenerateCommand.


(** * Further properties of the code *)

(** ** The random primitives *)

Section RandomPrimitives.
Import JS Generator Vocabulary.
Local Open Scope R_scope.

Variable rnd : nat -> R.
Variable Array_sort :
  forall T : Type, (T -> T -> M R) -> list T -> M (list T).
Hypothesis rnd_range : forall p, 0 <= rnd p < 1.
Hypothesis Array_sort_permutation :
  forall (T : Type) (comparefn : T -> T -> M R) (xs : list T),
    (forall a b, returns (comparefn a b) (fun _ => True)) ->
    returns (Array_sort comparefn xs) (fun ys => Permutation ys xs).


(** [items[Math.floor(Math.random() * items.length)]] reads one value of
    the oracle and is an element of [items], or [undefined] when [items] is
    empty. *)
Theorem getRandomItem_member (T : Type) (items : list T) (p : nat) :
  exists v,
    getRandomItem rnd items p = Normal (v, S p) /\ picked items v.
Proof.
  destruct (@getRandomItem_picked rnd rnd_range T items p)
    as (v & p' & E & Hv).
  exists v. split; [|exact Hv].
  unfold getRandomItem, bind, Math_random, ret in E |- *.
  now inversion E.
Qed.

(** [getRandomItems(items, count)] returns the first [count] elements of a
    rearrangement of [items], all of it when [count] is not smaller than its
    length: no element is taken more often than [items] holds it. *)
Theorem getRandomItems_sample (T : Type) (items : list T) (count : Z)
  (p : nat) :
  (0 <= count)%Z ->
  exists sample rest p',
    getRandomItems rnd Array_sort items count p = Normal (sample, p')
    /\ length sample = Nat.min (Z.to_nat count) (length items)
    /\ Permutation (sample ++ rest) items.
Proof.
  intros Hc. unfold getRandomItems.
  destruct (@Array_sort_permutation T
              (fun _ _ => u <- Math_random rnd ;; ret (0.5 - u)) items)
    with (p := p) as (shuffled & p' & E & Hperm).
  { intros a b q. eexists _, _. split; [reflexivity|exact I]. }
  exists (firstn (Z.to_nat count) shuffled),
         (skipn (Z.to_nat count) shuffled), p'.
  unfold bind at 1. rewrite E. unfold ret, slice0.
  assert ((count <? 0)%Z = false) as -> by lia.
  split; [reflexivity|]. split.
  - now rewrite length_firstn, (Permutation_length Hperm).
  - now rewrite firstn_skipn.
Qed.

End RandomPrimitives.

Section RandomBounds.
Import JS Generator.
Local Open Scope R_scope.



End RandomBounds.

Section RandomPrimitivesInstances.
Import JS Generator.


Lemma getRandomItem_member_example :
  exists v,
    getRandomItem rnd_zero (cities sample_data) 0 = Normal (v, 1%nat)
    /\ picked (cities sample_data) v.
Proof.
  exact (@getRandomItem_member rnd_zero rnd_zero_range _
           (cities sample_data) 0%nat).
Defined.

Lemma getRandomItems_sample_example :
  exists sample rest p',
    getRandomItems rnd_zero sort_keep (previewImages sample_data) 2 0
    = Normal (sample, p')
    /\ length sample
       = Nat.min (Z.to_nat 2) (length (previewImages sample_data))
    /\ Permutation (sample ++ rest) (previewImages sample_data).
Proof.
  apply (@getRandomItems_sample rnd_zero sort_keep sort_keep_permutation _
           (previewImages sample_data) 2 0).
  lia.
Defined.

End RandomPrimitivesInstances.

(** ** One iteration of the generator *)

Section Iteration.
Import JS Generator Vocabulary.

Variable rnd : nat -> R.
Variable Array_sort :
  forall T : Type, (T -> T -> M R) -> list T -> M (list T).

Lemma item_some_in (T : Type) (items : list T) (index : Z) (x : T) :
  item items index = Some x -> In x items.
Proof.
  unfold item. destruct (index <? 0)%Z; [discriminate|].
  apply nth_error_In.
Qed.


Hypothesis rnd_range : forall p, (0 <= rnd p < 1)%R.
Hypothesis Array_sort_permutation :
  forall (T : Type) (comparefn : T -> T -> M R) (xs : list T),
    (forall a b, returns (comparefn a b) (fun _ => True)) ->
    returns (Array_sort comparefn xs) (fun ys => Permutation ys xs).

Lemma throws_bind (A B : Type) (m : M A) (k : A -> M B) (P : A -> Prop)
  (e : jsstring) :
  returns m P -> (forall a, P a -> throws (k a) e) -> throws (bind m k) e.
Proof.
  intros Hm Hk p. destruct (Hm p) as (a & p' & E & Ha).
  unfold bind. rewrite E. apply (Hk a Ha).
Qed.

Tactic Notation "pass" constr(lemma) "as" ident(x) ident(Hx) :=
  eapply throws_bind; [apply lemma | cbv beta; intros x Hx].

Lemma make_offer_no_users (mockData : MockServerData) (p : nat) :
  users mockData = [] ->
  cities mockData <> [] ->
  (forall city, In city (cities mockData) ->
     exists center, property (coordinates mockData) city = Some center) ->
  make_offer rnd Array_sort mockData p
  = Throw (TypeError_undefined "name"%str).
Proof.
  intros Husers Hcities Hcoords. revert p.
  change (throws (make_offer rnd Array_sort mockData)
            (TypeError_undefined "name"%str)).
  unfold make_offer. rewrite Husers.
  pose proof (Math_random_range rnd rnd_range) as Hrandom.
  pose proof (generateRandomNumber_range rnd rnd_range) as Hnumber.
  pose proof (getRandomItem_picked rnd rnd_range) as Hitem.
  pose proof (getRandomItems_length rnd Array_sort rnd_range
                Array_sort_permutation) as Hitems.
  pass (Hitem _ (cities mockData)) as city Hcity.
  destruct (@picked_some _ _ _ Hcities Hcity) as (c & -> & Hc).
  destruct (Hcoords c Hc) as (center & Hcenter).
  cbn [key_of]. rewrite Hcenter.
  pass (location_distance rnd rnd_range center) as location Hlocation.
  pass (Hnumber 3%Z 6%Z ltac:(lia)) as photosCount HphotosCount.
  pass (Hitems _ (previewImages mockData) photosCount ltac:(lia))
    as photos Hphotos.
  pass (Hitem user []) as user Huser.
  cbn [picked] in Huser. subst user.
  pass (Hitem _ (titles mockData)) as title Htitle.
  pass (Hitem _ (descriptions mockData)) as description Hdescription.
  pass (Hitem _ (previewImages mockData)) as previewImage HpreviewImage.
  pass Hrandom as isPremium HisPremium.
  pass Hrandom as rating Hrating.
  pass (Hitem _ (propertyTypes mockData)) as type' Htype.
  pass (Hnumber 1%Z 5%Z ltac:(lia)) as rooms Hrooms.
  pass (Hnumber 1%Z 10%Z ltac:(lia)) as guests Hguests.
  pass (Hnumber 50%Z 1000%Z ltac:(lia)) as price Hprice.
  pass (Hnumber 2%Z 6%Z ltac:(lia)) as featuresCount HfeaturesCount.
  pass (Hitems _ (features mockData) featuresCount ltac:(lia))
    as features' Hfeatures.
  intros q. reflexivity.
Qed.

(** A dataset without users, otherwise well formed: the iteration throws
    the [TypeError] of [user.name], after the city, the location, the photos
    and every other field have been drawn. *)
Theorem no_users_throw (mockData : MockServerData) (p : nat) :
  users mockData = [] ->
  cities mockData <> [] ->
  (forall city, In city (cities mockData) ->
     exists center, property (coordinates mockData) city = Some center) ->
  make_offer rnd Array_sort mockData p
  = Throw (TypeError_undefined "name"%str).
Proof. exact (make_offer_no_users mockData p). Qed.


End Iteration.

Section IterationInstances.
Import JS Generator Vocabulary.


Lemma no_users_throw_example :
  make_offer rnd_zero sort_keep no_users_data 0
  = Throw (TypeError_undefined "name"%str).
Proof.
  apply (@no_users_throw rnd_zero sort_keep rnd_zero_range
           sort_keep_permutation no_users_data 0).
  - reflexivity.
  - discriminate.
  - intros city [<-|[]]. now exists paris.
Defined.


End IterationInstances.

(** ** Runs of the [generate] command after a successful fetch *)

Section GenerateRuns.
Import JS Generator Promise Generate Vocabulary.

Variable payload : Type.
Variable as_strings : payload -> list jsstring.
Variable as_users : payload -> list user.
Variable as_coordinates : payload -> list (jsstring * Center.t).
Variable got : jsstring -> settled payload.
Variable rnd : nat -> R.
Variable Array_sort :
  forall T : Type, (T -> T -> M R) -> list T -> M (list T).
Hypothesis rnd_range : forall p, (0 <= rnd p < 1)%R.
Hypothesis Array_sort_permutation :
  forall (T : Type) (comparefn : T -> T -> M R) (xs : list T),
    (forall a b, returns (comparefn a b) (fun _ => True)) ->
    returns (Array_sort comparefn xs) (fun ys => Permutation ys xs).

Lemma for_await_offers (mockData : MockServerData) (count : Z)
  (filepath : jsstring) (fuel : nat) :
  well_formed mockData ->
  forall g, (0 <= i g)%Z -> (Z.to_nat (count - i g) < fuel)%nat ->
  exists offers,
    for_await rnd Array_sort mockData count filepath fuel g
    = (map (fun o => Write filepath (line_of o)) offers, Returned)
    /\ length offers = Z.to_nat (count - i g)
    /\ Forall (offer_spec mockData) offers.
Proof.
  intros Hwf. induction fuel as [|fuel IH]; intros g Hg Hfuel; [lia|].
  cbn [for_await]. unfold next. destruct (i g <? count)%Z eqn:E.
  - apply Z.ltb_lt in E.
    destruct (@make_offer_spec rnd Array_sort rnd_range
                Array_sort_permutation mockData Hwf (position g))
      as (o & p' & Eo & Ho).
    rewrite Eo.
    destruct (IH {| i := i g + 1; position := p' |})
      as (offers & El & Hlen & Hall); [cbn [i]; lia | cbn [i]; lia |].
    rewrite El. exists (o :: offers). split; [reflexivity|]. split.
    + cbn [length i] in *. lia.
    + now constructor.
  - apply Z.ltb_ge in E. exists []. split; [reflexivity|]. split.
    + cbn. lia.
    + constructor.
Qed.

Lemma all_of_fulfilled (url : jsstring) (order : list nat)
  (vs : list payload) :
  Permutation order (seq 0 8) ->
  map got (request_urls url) = map (@Fulfilled payload) vs ->
  Promise.all (map got (request_urls url)) order = Some (Fulfilled vs).
Proof.
  intros Hperm Hvs. apply all_fulfils; [exact Hvs|].
  now rewrite length_map, request_urls_length.
Qed.



End GenerateRuns.

Section GenerateRunsInstances.
Import JS Generator Promise Generate Vocabulary.



End GenerateRunsInstances.

(** ** More on the transcoder *)

Section TranscoderLines.
Import JS TSVTransform Vocabulary.

Lemma trimStart_nil (s : jsstring) :
  trimStart s = [] <-> forallb is_white_space s = true.
Proof.
  induction s as [|c s IH]; [now split|].
  cbn [trimStart forallb]. destruct (is_white_space c); [exact IH|].
  split; discriminate.
Qed.

Lemma trimStart_head (s r : jsstring) (x : N) :
  trimStart s = x :: r -> is_white_space x = false /\ In x s.
Proof.
  induction s as [|c s IH]; [discriminate|].
  cbn [trimStart]. destruct (is_white_space c) eqn:E.
  - intros H. destruct (IH H). split; [assumption | now right].
  - intros H. inversion H; subst. split; [assumption | now left].
Qed.

(** [!line.trim()] holds exactly of the lines made of white space. *)
Lemma trim_nil (s : jsstring) :
  trim s = [] <-> forallb is_white_space s = true.
Proof.
  unfold trim. split.
  - intros H. apply trimStart_nil.
    destruct (trimStart s) as [|x r] eqn:E; [reflexivity|].
    destruct (trimStart_head _ E) as [Hx _].
    assert (trimStart (rev (x :: r)) = []) as Hrev.
    { destruct (trimStart (rev (x :: r))); [reflexivity|].
      apply (f_equal (@length _)) in H. rewrite length_rev in H.
      discriminate H. }
    apply trimStart_nil in Hrev. rewrite forallb_forall in Hrev.
    specialize (Hrev x). rewrite <- in_rev in Hrev.
    rewrite Hrev in Hx by now left. discriminate.
  - intros H. apply trimStart_nil in H. now rewrite H.
Qed.

(** What one complete line gives, for every line: nothing when it is made
    of white space only, the JSON line of its fields when it has eighteen of
    them, and one warning otherwise. A line that is not blank is never
    dropped silently. *)
Theorem line_outcome (line : jsstring) :
  transform_line line =
  if forallb is_white_space line then []
  else if (length (split TAB line) =? 18)%nat
       then [Push (json_line (split TAB line))]
       else [Warning (js "Warning: Skipping invalid line: "%str ++ line)].
Proof.
  destruct (forallb is_white_space line) eqn:Hblank.
  - unfold transform_line. apply trim_nil in Hblank. now rewrite Hblank.
  - assert (trim line <> []) as Htrim.
    { intros H. apply trim_nil in H. congruence. }
    destruct (length (split TAB line) =? 18)%nat eqn:Hlen.
    + apply Nat.eqb_eq in Hlen. now apply transform_line_valid.
    + apply Nat.eqb_neq in Hlen. now apply transform_line_invalid.
Qed.

(** Feeding is incremental: the chunks of a stream can be delivered in two
    batches, the second to the state the first has left. *)
Theorem feed_app (st : state) (chunks1 chunks2 : list Buffer) :
  feed st (chunks1 ++ chunks2) =
  let (st1, out1) := feed st chunks1 in
  let (st2, out2) := feed st1 chunks2 in
  (st2, out1 ++ out2).
Proof.
  revert st. induction chunks1 as [|chunk chunks1 IH]; intros st.
  - cbn [feed app]. now destruct (feed st chunks2).
  - cbn [feed app]. destruct (_transform st chunk) as [st' out'].
    rewrite IH. destruct (feed st' chunks1) as [st1 out1].
    destruct (feed st1 chunks2) as [st2 out2].
    now rewrite app_assoc.
Qed.

(** *** Every push is one line *)

Lemma hex_digit_printable (d : N) : printable (hex_digit d).
Proof. unfold printable, hex_digit. destruct (d <? 10)%N; lia. Qed.

Lemma quote_unit_printable (c : N) : Forall printable (quote_unit c).
Proof.
  unfold quote_unit.
  repeat match goal with
         | |- context [(c =? ?k)%N] =>
             destruct (c =? k)%N eqn:?;
             [repeat constructor; unfold printable; lia|]
         end.
  destruct (c <? 32)%N eqn:E.
  - cbn [orb]. unfold UnicodeEscape.
    repeat constructor; try apply hex_digit_printable; unfold printable; lia.
  - apply N.ltb_ge in E. cbn [orb].
    destruct (is_high_surrogate c || is_low_surrogate c).
    + unfold UnicodeEscape.
      repeat constructor; try apply hex_digit_printable; unfold printable; lia.
    + repeat constructor. exact E.
Qed.

Lemma quote_body_pair (c d : N) (tl : jsstring) :
  quote_body (c :: d :: tl) =
  if is_high_surrogate c && is_low_surrogate d
  then c :: d :: quote_body tl
  else quote_unit c ++ quote_body (d :: tl).
Proof. reflexivity. Qed.

Lemma quote_body_printable (s : jsstring) : Forall printable (quote_body s).
Proof.
  assert (forall n s, (length s <= n)%nat -> Forall printable (quote_body s))
    as H.
  { clear s. induction n as [|n IH]; intros s Hn.
    - destruct s; [constructor | cbn in Hn; lia].
    - destruct s as [|c [|d tl]]; [constructor| |].
      + cbn [quote_body]. apply quote_unit_printable.
      + rewrite quote_body_pair.
        destruct (is_high_surrogate c && is_low_surrogate d) eqn:E.
        * apply andb_prop in E as [Ec Ed].
          unfold is_high_surrogate in Ec. unfold is_low_surrogate in Ed.
          apply andb_prop in Ec as [Ec _]. apply andb_prop in Ed as [Ed _].
          apply N.leb_le in Ec, Ed.
          constructor; [unfold printable; lia|].
          constructor; [unfold printable; lia|].
          apply IH. cbn in Hn. lia.
        * apply Forall_app. split; [apply quote_unit_printable|].
          apply IH. cbn in Hn |- *. lia. }
  now apply (H (length s)).
Qed.

Lemma join_Forall (P : N -> Prop) (glue : jsstring) (xs : list jsstring) :
  Forall P glue -> Forall (Forall P) xs -> Forall P (join glue xs).
Proof.
  intros Hglue Hxs. induction Hxs as [|x xs Hx Hxs IH]; [constructor|].
  destruct xs as [|y xs]; [exact Hx|].
  change (join glue (x :: y :: xs)) with (x ++ glue ++ join glue (y :: xs)).
  repeat (apply Forall_app; split); assumption.
Qed.

Lemma JSON_stringify_printable (o : object) :
  Forall printable (JSON_stringify o).
Proof.
  unfold JSON_stringify.
  repeat (apply Forall_app; split);
    try (repeat constructor; unfold printable; lia).
  apply join_Forall; [repeat constructor; unfold printable; lia|].
  apply Forall_forall. intros x Hx. apply in_flat_map in Hx as (e & _ & Hx).
  unfold JSON_property in Hx. destruct (snd e); [|destruct Hx].
  destruct Hx as [<-|[]]. unfold QuoteJSONString.
  repeat (apply Forall_app; split); try apply quote_body_printable;
    repeat constructor; unfold printable; lia.
Qed.

Lemma pushed_lines (evs : list event) :
  (forall e, In e evs -> forall d, e = Push d -> one_line d) ->
  Forall one_line (pushed evs).
Proof.
  intros H. apply Forall_forall. intros d Hd.
  apply in_flat_map in Hd as (e & He & Hd).
  destruct e as [d'|m]; [|destruct Hd].
  destruct Hd as [<-|[]]. now apply (H _ He).
Qed.

(** Whatever bytes arrive and however they are cut into chunks, everything
    the transcoder pushes is exactly one line: text without a newline or any
    other control character, followed by one newline. *)
Theorem pushes_are_lines (chunks : list Buffer) :
  Forall one_line (pushed (pipeline chunks)).
Proof.
  apply pushed_lines. intros e He d ->. rewrite pipeline_eq in He.
  assert (forall values, one_line (JSON_stringify (offer values) ++ [LF]))
    as Hoffer.
  { intros values. eexists. split; [reflexivity|].
    apply JSON_stringify_printable. }
  apply in_app_or in He as [He|He].
  - apply in_flat_map in He as (line & _ & He).
    unfold transform_line in He.
    destruct (negb (truthy (trim line))); [destruct He|].
    destruct (negb (length (split TAB line) =? length columns)%nat);
      destruct He as [He|[]]; inversion He. apply Hoffer.
  - unfold _flush in He. cbn [remainder] in He.
    destruct (truthy (tail_line (decoded chunks))); [|destruct He].
    destruct (length (split TAB (tail_line (decoded chunks)))
              =? length columns)%nat; [|destruct He].
    destruct He as [He|[]]. inversion He. apply Hoffer.
Qed.

End TranscoderLines.

(** ** More on the non-streaming importer *)

Section LegacyRows.
Import JS Cli.

Variable number : Type.
Variable Number : option jsstring -> number.

Lemma parse_row_throw_cases (row : jsstring) :
  parse_row Number row = Throw TypeError_split
  <-> (length (split TAB row) < 12)%nat.
Proof.
  unfold parse_row. split.
  - intros H.
    destruct (nth_error (split TAB row) 4) eqn:E4.
    + destruct (nth_error (split TAB row) 11) eqn:E11; [discriminate H|].
      apply nth_error_None in E11. lia.
    + apply nth_error_None in E4. lia.
  - intros H.
    assert (nth_error (split TAB row) 11 = None) as ->
      by (apply nth_error_None; lia).
    now destruct (nth_error (split TAB row) 4).
Qed.

(** The callback of [rows.map] throws exactly on the rows with fewer than
    twelve tab-separated fields, those in which [photos] or [features] is
    [undefined]; fields beyond the eighteenth and missing fields after the
    twelfth are accepted. *)
Theorem parse_row_throws_iff (row : jsstring) :
  parse_row Number row = Throw TypeError_split
  <-> (length (split TAB row) < 12)%nat.
Proof. exact (parse_row_throw_cases row). Qed.

Lemma map_rows_all (rows : list jsstring) :
  forallb (fun row => (12 <=? length (split TAB row))%nat) rows = true ->
  exists data, map_rows Number rows = Normal data
               /\ length data = length rows.
Proof.
  induction rows as [|row rows IH]; intros H.
  - now exists [].
  - cbn [forallb] in H. apply andb_prop in H as [Hrow Hrows].
    apply Nat.leb_le in Hrow.
    destruct (IH Hrows) as (data & E & Hlen).
    destruct (parse_row_cases Number row) as [Hthrow|[o Eo]].
    + apply parse_row_throw_cases in Hthrow. lia.
    + exists (o :: data). cbn [map_rows length]. now rewrite Eo, E, Hlen.
Qed.

Lemma map_rows_some_short (rows : list jsstring) :
  forallb (fun row => (12 <=? length (split TAB row))%nat) rows = false ->
  map_rows Number rows = Throw TypeError_split.
Proof.
  intros H.
  assert (exists row, In row rows /\ (length (split TAB row) < 12)%nat)
    as (row & Hin & Hrow).
  { induction rows as [|r rows IH]; [discriminate H|].
    cbn [forallb] in H. apply Bool.andb_false_iff in H as [H|H].
    - exists r. split; [now left|]. apply Nat.leb_gt in H. exact H.
    - destruct (IH H) as (row & Hin & Hrow). exists row. split; auto.
      now right. }
  apply (@map_rows_throws number Number rows row Hin).
  now apply parse_row_throw_cases.
Qed.

(** The importer, for every file it can read: it reports success exactly
    when every row between newlines has at least twelve fields, counting
    the text after the last newline as a row, and then the number of offers
    it reports is the number of newlines plus one; otherwise it reports the
    [TypeError]. *)
Theorem legacy_import_outcome (content : jsstring) :
  handleImportCommand Number (Normal content) =
  if forallb (fun row => (12 <=? length (split TAB row))%nat)
       (split LF content)
  then [Log (PARTY ++ js " Data imported successfully!"%str);
        Log (js "Total offers imported: "%str
             ++ Generator.int_toString
                  (Z.of_nat (S (count_occ N.eq_dec content LF))))]
  else [Error (js "Failed to import data:"%str) TypeError_split].
Proof.
  unfold handleImportCommand.
  destruct (forallb _ (split LF content)) eqn:E.
  - destruct (map_rows_all _ E) as (data & -> & Hlen).
    now rewrite Hlen, split_length.
  - now rewrite (map_rows_some_short _ E).
Qed.

End LegacyRows.

(** ** From the generator to the importers *)

Section Joining.
Import JS.

Variable sep : N.

Lemma notIn_Forall (c : N) (s : jsstring) :
  ~ In c s <-> Forall (fun k => k <> c) s.
Proof.
  rewrite Forall_forall. split.
  - intros H k Hk ->. now apply H.
  - intros H Hin. now apply (H c Hin).
Qed.

Lemma join_free (c : N) (glue : jsstring) (xs : list jsstring) :
  ~ In c glue -> Forall (fun x => ~ In c x) xs -> ~ In c (join glue xs).
Proof.
  intros Hglue Hxs. apply notIn_Forall. apply join_Forall.
  - now apply notIn_Forall.
  - eapply Forall_impl; [|exact Hxs]. intros x. apply notIn_Forall.
Qed.

Lemma In_join (c : N) (x glue : jsstring) (xs : list jsstring) :
  In x xs -> In c x -> In c (join glue xs).
Proof.
  intros Hx Hc. induction xs as [|y xs IH]; [destruct Hx|].
  destruct xs as [|z xs].
  - destruct Hx as [->|[]]. exact Hc.
  - change (join glue (y :: z :: xs)) with (y ++ glue ++ join glue (z :: xs)).
    destruct Hx as [->|Hx]; apply in_or_app; [now left|].
    right. apply in_or_app. right. now apply IH.
Qed.

(** Joining what [split] returns gives the text back. *)
Lemma join_split (s : jsstring) : join [sep] (split sep s) = s.
Proof.
  induction s as [|c s IH]; [reflexivity|].
  destruct (N.eq_dec c sep) as [->|Hc].
  - rewrite split_cons_sep.
    destruct (split sep s) as [|l ls] eqn:E;
      [now apply split_nonempty in E|].
    change (join [sep] ([] :: l :: ls)) with (sep :: join [sep] (l :: ls)).
    now rewrite IH.
  - destruct (split_cons_other s Hc) as (l & ls & E & E').
    rewrite E'. rewrite E in IH. destruct ls as [|l' ls].
    + cbn [join] in IH |- *. now rewrite IH.
    + change (join [sep] ((c :: l) :: l' :: ls))
        with (c :: (l ++ [sep] ++ join [sep] (l' :: ls))).
      f_equal. exact IH.
Qed.

(** Splitting joined texts that hold no separator gives the texts back. *)
Lemma split_join (xs : list jsstring) :
  Forall (fun x => ~ In sep x) xs -> xs <> [] ->
  split sep (join [sep] xs) = xs.
Proof.
  intros Hxs.
  induction Hxs as [|x xs Hx Hxs IH]; [intros H; now contradiction H|].
  intros _.
  destruct xs as [|y xs].
  - cbn [join]. now apply split_no_sep.
  - change (join [sep] (x :: y :: xs)) with (x ++ sep :: join [sep] (y :: xs)).
    rewrite split_line by assumption. f_equal. apply IH. discriminate.
Qed.

End Joining.

Section RowTexts.
Import JS Generator Vocabulary.

Lemma numeric_free (c : N) (s : jsstring) :
  ~ numeric c -> Forall numeric s -> ~ In c s.
Proof.
  intros Hc Hs Hin. rewrite Forall_forall in Hs. now apply Hc, Hs.
Qed.

Lemma picked_free (c : N) (items : list jsstring) (v : option jsstring) :
  Forall (fun s => ~ In c s) items -> picked items v ->
  ~ In c (value_toString (of_option v)).
Proof.
  intros Hall Hv. destruct items as [|x items].
  - cbn in Hv. subst. intros [].
  - destruct Hv as (y & -> & Hy). cbn [of_option value_toString].
    rewrite Forall_forall in Hall. now apply Hall.
Qed.

Lemma sample_free (c : N) (items : list jsstring) (lo hi : Z)
  (text : jsstring) :
  c <> SEMICOLON ->
  Forall (fun s => ~ In c s) items -> sample_of items lo hi text ->
  ~ In c text.
Proof.
  intros Hc Hall (count & sample & _ & -> & _ & Hincl).
  apply join_free.
  - intros [H|[]]. now apply Hc.
  - rewrite Forall_forall in Hall |- *. intros x Hx. apply Hall, Hincl, Hx.
Qed.

(** A code unit that is no digit, point or minus sign, no semicolon and no
    letter of [true] or [false], and that the dataset does not hold, is in
    no value of a row. *)
Lemma row_texts_free (c : N) (mockData : MockServerData) (o : Offer) :
  ~ numeric c -> c <> SEMICOLON ->
  ~ In c (js "true"%str) -> ~ In c (js "false"%str) ->
  dataset_free c mockData -> offer_spec mockData o ->
  Forall (fun s => ~ In c s) (row_texts o).
Proof.
  intros Hnum Hsemi Htrue Hfalse
         (Ttitles & Tdescriptions & Tcities & Timages & Ttypes & Tfeatures
          & Tusers)
         (Htitle & Hdescription & Himage & Htype & Hphotos & Hfeatures
          & (n & _ & Hrating) & _ & _ & _
          & (u & Hu & Hname & Hemail & Havatar & _)
          & (city & center & location & Hcity & Hc & _ & _ & Hlat & Hlon)).
  rewrite Forall_forall in Tusers. destruct (Tusers u Hu) as (Tn & Te & Ta).
  rewrite Forall_forall in Tcities.
  assert (forall b, ~ In c (bool_toString b)) as Hbool
    by (intros []; assumption).
  assert (forall z, ~ In c (int_toString z)) as Hint.
  { intros z. apply numeric_free; [exact Hnum|]. unfold int_toString.
    destruct (z <? 0)%Z; [constructor; [now left|]|]; apply decimal_numeric. }
  assert (forall x d, ~ In c (toFixed x d)) as Hfixed
    by (intros x d; apply numeric_free; [exact Hnum|apply toFixed_numeric]).
  unfold row_texts. cbn [row_values map value_toString].
  rewrite Hcity, Hname, Hemail, Havatar, Hlat, Hlon, Hrating.
  cbn [of_option value_toString].
  repeat constructor; auto.
  - exact (@picked_free c _ _ Ttitles Htitle).
  - exact (@picked_free c _ _ Tdescriptions Hdescription).
  - exact (@picked_free c _ _ Timages Himage).
  - exact (@sample_free c _ _ _ _ Hsemi Timages Hphotos).
  - apply numeric_free; [exact Hnum|apply tenths_numeric].
  - exact (@picked_free c _ _ Ttypes Htype).
  - exact (@sample_free c _ _ _ _ Hsemi Tfeatures Hfeatures).
Qed.

Lemma TAB_plain :
  ~ numeric TAB /\ TAB <> SEMICOLON
  /\ ~ In TAB (js "true"%str) /\ ~ In TAB (js "false"%str).
Proof.
  repeat split; try discriminate;
    try (apply notIn_existsb; reflexivity).
  unfold numeric, TAB. lia.
Qed.

Lemma LF_plain :
  ~ numeric LF /\ LF <> SEMICOLON
  /\ ~ In LF (js "true"%str) /\ ~ In LF (js "false"%str).
Proof.
  repeat split; try discriminate;
    try (apply notIn_existsb; reflexivity).
  unfold numeric, LF. lia.
Qed.

(** The row of an offer made from a dataset without tabs: eighteen texts
    without a tab, that [split] gives back from the joined row. *)
Lemma row_split_back (mockData : MockServerData) (o : Offer) :
  dataset_free TAB mockData -> offer_spec mockData o ->
  split TAB (join [TAB] (row_texts o)) = row_texts o.
Proof.
  intros Hfree Ho. destruct TAB_plain as (H1 & H2 & H3 & H4).
  apply split_join; [|discriminate].
  exact (@row_texts_free TAB mockData o H1 H2 H3 H4 Hfree Ho).
Qed.

(** The row is not blank: its rating holds a point. *)
Lemma row_not_blank (mockData : MockServerData) (o : Offer) :
  offer_spec mockData o -> trim (join [TAB] (row_texts o)) <> [].
Proof.
  intros (_ & _ & _ & _ & _ & _ & (n & _ & Hrating) & _) H.
  apply trim_nil in H. rewrite forallb_forall in H.
  assert (In 46%N (join [TAB] (row_texts o))) as Hin.
  { apply (@In_join 46%N (offer_rating o)).
    - unfold row_texts. cbn [row_values map value_toString]. do 6 right.
      now left.
    - rewrite Hrating. unfold tenths. apply in_or_app. right. now left. }
  specialize (H _ Hin). discriminate H.
Qed.

End RowTexts.

Section EndToEnd.
Import JS Generator Vocabulary.

Variable rnd : nat -> R.
Variable Array_sort :
  forall T : Type, (T -> T -> M R) -> list T -> M (list T).
Hypothesis rnd_range : forall p, (0 <= rnd p < 1)%R.
Hypothesis Array_sort_permutation :
  forall (T : Type) (comparefn : T -> T -> M R) (xs : list T),
    (forall a b, returns (comparefn a b) (fun _ => True)) ->
    returns (Array_sort comparefn xs) (fun ys => Permutation ys xs).

Variable mockData : MockServerData.
Hypothesis mockData_well_formed : well_formed mockData.

Variable number : Type.
Variable Number : option jsstring -> number.

Lemma pull_offers (count : Z) (n : nat) :
  forall g, (0 <= i g)%Z ->
  exists offers g',
    pull rnd Array_sort mockData count n g
    = Normal (map (fun o => Some (line_of o)) offers
              ++ repeat None (n - Z.to_nat (count - i g)), g')
    /\ length offers = Nat.min n (Z.to_nat (count - i g))
    /\ Forall (offer_spec mockData) offers.
Proof.
  induction n as [|n IH]; intros g Hg.
  - exists [], g. repeat split. constructor.
  - cbn [pull]. unfold next. destruct (i g <? count)%Z eqn:E.
    + apply Z.ltb_lt in E.
      destruct (@make_offer_spec rnd Array_sort rnd_range
                  Array_sort_permutation mockData mockData_well_formed
                  (position g))
        as (o & p' & Eo & Ho).
      rewrite Eo.
      destruct (IH {| i := i g + 1; position := p' |}) as
        (offers & g' & Epull & Hlen & Hall); [cbn [i]; lia|].
      rewrite Epull. cbn [i] in *.
      exists (o :: offers), g'. split; [|split].
      * replace (S n - Z.to_nat (count - i g))%nat
          with (n - Z.to_nat (count - (i g + 1)))%nat by lia.
        reflexivity.
      * cbn [length]. rewrite Hlen. lia.
      * now constructor.
    + apply Z.ltb_ge in E.
      destruct (IH g Hg) as (offers & g' & Epull & Hlen & Hall).
      rewrite Epull.
      assert (Z.to_nat (count - i g) = 0%nat) as Hz by lia.
      rewrite Hz in *. rewrite Nat.min_0_r in Hlen.
      destruct offers; [|discriminate Hlen].
      exists [], g'. repeat split; [|constructor].
      cbn [map app]. now rewrite !Nat.sub_0_r.
Qed.

Lemma lines_of_rows (rows : list jsstring) :
  Forall (fun r => ~ In LF r) rows ->
  let text := concat (map (fun r => r ++ [LF]) rows) in
  TSVTransform.complete_lines text = rows /\ TSVTransform.tail_line text = [].
Proof.
  induction 1 as [|r rows Hr _ IH]; [now split|].
  cbn zeta in IH |- *. destruct IH as [IH1 IH2].
  cbn [map concat]. rewrite <- app_assoc. cbn [app].
  rewrite (@complete_lines_line r _ Hr), (@tail_line_line r _ Hr).
  now rewrite IH1, IH2.
Qed.

(** Round trip of a row: on a dataset without tabs the line the generator
    yields is its eighteen values joined by tabs, and splitting that row on
    tabs gives the eighteen values back, each as it was written. *)
Theorem generated_row_round_trip :
  dataset_free TAB mockData ->
  returns (make_offer rnd Array_sort mockData)
    (fun o =>
       line_of o = join [TAB] (row_texts o) ++ [LF]
       /\ length (row_texts o) = 18%nat
       /\ split TAB (join [TAB] (row_texts o)) = row_texts o).
Proof.
  intros Hfree.
  eapply returns_weaken;
    [apply (@make_offer_spec rnd Array_sort rnd_range
              Array_sort_permutation mockData mockData_well_formed)|].
  intros o Ho. repeat split. now apply (@row_split_back mockData).
Qed.

(** From [generate] to [import]: on a dataset without tabs and newlines,
    a file that holds the lines the generator yields, read in chunks that
    decode to that text, makes the streaming importer print exactly one JSON
    line per offer, in order, with the offer's eighteen values under the
    eighteen column names, no warning, and report success. *)
Theorem generate_then_import (count : Z) (n position : nat)
  (filepath : jsstring) :
  dataset_free TAB mockData ->
  dataset_free LF mockData ->
  exists offers g,
    pull rnd Array_sort mockData count n (generateOffers_start position)
    = Normal (map (fun o => Some (line_of o)) offers
              ++ repeat None (n - Z.to_nat count), g)
    /\ length offers = Nat.min n (Z.to_nat count)
    /\ forall chunks,
         TSVTransform.decoded chunks = concat (map line_of offers) ->
         TSVTransform.pipeline chunks
         = map (fun o => TSVTransform.Push (json_line (row_texts o))) offers
         /\ ImportCommand.handleImportCommand filepath (Normal chunks)
            = (ImportCommand.Log (js "Starting import from "%str ++ filepath)
               :: map (fun o => ImportCommand.Transformed
                                  (TSVTransform.Push (json_line (row_texts o))))
                    offers
               ++ [ImportCommand.Log
                     (LF :: PARTY ++ js " Data imported successfully!"%str)],
               ImportCommand.Returned).
Proof.
  intros Htab Hlf.
  destruct (@pull_offers count n (generateOffers_start position))
    as (offers & g & E & Hlen & Hall); [cbn; lia|].
  cbn [generateOffers_start i] in E, Hlen. rewrite Z.sub_0_r in E, Hlen.
  exists offers, g. split; [exact E|]. split; [exact Hlen|].
  intros chunks Hdecoded.
  assert (TSVTransform.pipeline chunks
          = map (fun o => TSVTransform.Push (json_line (row_texts o))) offers)
    as Hpipeline.
  { rewrite pipeline_eq, Hdecoded.
    replace (map line_of offers)
      with (map (fun r => r ++ [LF])
              (map (fun o => join [TAB] (row_texts o)) offers))
      by (now rewrite map_map).
    destruct (@lines_of_rows
                (map (fun o => join [TAB] (row_texts o)) offers))
      as [Hlines Htail].
    { apply Forall_map. eapply Forall_impl; [|exact Hall]. intros o Ho.
      destruct LF_plain as (H1 & H2 & H3 & H4).
      apply join_free; [intros [H|[]]; discriminate H|].
      exact (@row_texts_free LF mockData o H1 H2 H3 H4 Hlf Ho). }
    cbn zeta in Hlines, Htail. rewrite Hlines, Htail.
    change (TSVTransform._flush {| TSVTransform.remainder := [] |})
      with (@nil TSVTransform.event).
    rewrite app_nil_r. clear E Hlen Hdecoded Hlines Htail.
    induction Hall as [|o offers Ho _ IH]; [reflexivity|].
    cbn [map flat_map]. rewrite IH.
    rewrite transform_line_valid.
    - rewrite (@row_split_back mockData o Htab Ho). reflexivity.
    - exact (@row_not_blank mockData o Ho).
    - now rewrite (@row_split_back mockData o Htab Ho). }
  split; [exact Hpipeline|].
  unfold ImportCommand.handleImportCommand. rewrite Hpipeline, map_map.
  reflexivity.
Qed.

(** The non-streaming importer reads one row of the generator back: on a
    dataset without tabs and semicolons that has preview images and
    features, the callback of [rows.map] accepts the row of every generated
    offer (taken without its newline), and the photos and features it
    splits out are the lists the generator had joined. *)
Theorem legacy_row_round_trip :
  dataset_free TAB mockData ->
  dataset_free SEMICOLON mockData ->
  previewImages mockData <> [] ->
  features mockData <> [] ->
  returns (make_offer rnd Array_sort mockData)
    (fun o =>
       exists r photos features',
         Cli.parse_row Number (join [TAB] (row_texts o)) = Cli.Normal r
         /\ offer_photos o = join [SEMICOLON] photos
         /\ Cli.photos r = photos
         /\ offer_features o = join [SEMICOLON] features'
         /\ Cli.features r = features'
         /\ Cli.title r = Some (value_toString (of_option (offer_title o)))
         /\ Cli.isPremium r = offer_isPremium o).
Proof.
  intros Htab Hsemi Himages Hfeatures.
  eapply returns_weaken;
    [apply (@make_offer_spec rnd Array_sort rnd_range
              Array_sort_permutation mockData mockData_well_formed)|].
  intros o Ho.
  pose proof (@row_split_back mockData o Htab Ho) as Hsplit.
  destruct Ho as (_ & _ & _ & _ & (k1 & photos & Hk1 & E1 & L1 & I1)
                  & (k2 & features' & Hk2 & E2 & L2 & I2) & _).
  destruct Hsemi as (_ & _ & _ & Simages & _ & Sfeatures & _).
  assert (forall items sample k,
             (1 <= k)%Z -> items <> [] ->
             length sample = Nat.min (Z.to_nat k) (length items) ->
             incl sample items ->
             Forall (fun s : jsstring => ~ In SEMICOLON s) items ->
             split SEMICOLON (join [SEMICOLON] sample) = sample) as Hback.
  { intros items sample k Hk Hne Hlen Hincl Hfree. apply split_join.
    - rewrite Forall_forall in Hfree |- *. intros x Hx.
      apply Hfree, Hincl, Hx.
    - destruct sample; [|discriminate].
      destruct items; [congruence|]. cbn in Hlen. lia. }
  unfold Cli.parse_row. rewrite Hsplit. unfold row_texts.
  cbn [row_values map nth_error value_toString].
  eexists _, photos, features'. split; [reflexivity|].
  cbn [Cli.photos Cli.features Cli.title Cli.isPremium].
  rewrite E1, E2.
  rewrite (Hback _ _ k1 ltac:(lia) Himages L1 I1 Simages).
  rewrite (Hback _ _ k2 ltac:(lia) Hfeatures L2 I2 Sfeatures).
  repeat split.
  unfold Cli.is_true, bool_toString. now destruct (offer_isPremium o).
Qed.

End EndToEnd.

Section EndToEndInstances.
Import JS Generator Vocabulary.

Lemma sample_data_free (c : N) :
  existsb (N.eqb c)
    (concat (titles sample_data ++ descriptions sample_data
             ++ cities sample_data ++ previewImages sample_data
             ++ propertyTypes sample_data ++ features sample_data
             ++ [name jane; email jane; avatarUrl jane])) = false ->
  dataset_free c sample_data.
Proof.
  intros H. apply notIn_existsb in H.
  assert (forall s, In s (titles sample_data ++ descriptions sample_data
                          ++ cities sample_data ++ previewImages sample_data
                          ++ propertyTypes sample_data ++ features sample_data
                          ++ [name jane; email jane; avatarUrl jane]) ->
                    ~ In c s) as Hs.
  { intros s Hin Hc. apply H. apply in_concat. now exists s. }
  unfold dataset_free.
  repeat split; repeat constructor; apply Hs; cbn; tauto.
Defined.

Lemma generated_row_round_trip_example :
  returns (make_offer rnd_zero sort_keep sample_data)
    (fun o =>
       line_of o = join [TAB] (row_texts o) ++ [LF]
       /\ length (row_texts o) = 18%nat
       /\ split TAB (join [TAB] (row_texts o)) = row_texts o).
Proof.
  apply (@generated_row_round_trip rnd_zero sort_keep rnd_zero_range
           sort_keep_permutation sample_data (dataset_well_formed _ _)).
  apply sample_data_free. reflexivity.
Defined.

Lemma generate_then_import_example :
  exists offers g,
    pull rnd_zero sort_keep sample_data 2 3 (generateOffers_start 0)
    = Normal (map (fun o => Some (line_of o)) offers
              ++ repeat None (3 - Z.to_nat 2), g)
    /\ length offers = Nat.min 3 (Z.to_nat 2)
    /\ forall chunks,
         TSVTransform.decoded chunks = concat (map line_of offers) ->
         TSVTransform.pipeline chunks
         = map (fun o => TSVTransform.Push (json_line (row_texts o))) offers
         /\ ImportCommand.handleImportCommand (js "offers.tsv"%str)
              (Normal chunks)
            = (ImportCommand.Log
                 (js "Starting import from "%str ++ js "offers.tsv"%str)
               :: map (fun o => ImportCommand.Transformed
                                  (TSVTransform.Push (json_line (row_texts o))))
                    offers
               ++ [ImportCommand.Log
                     (LF :: PARTY ++ js " Data imported successfully!"%str)],
               ImportCommand.Returned).
Proof.
  apply (@generate_then_import rnd_zero sort_keep rnd_zero_range
           sort_keep_permutation sample_data (dataset_well_formed _ _)
           2%Z 3%nat 0%nat (js "offers.tsv"%str)).
  - apply sample_data_free. reflexivity.
  - apply sample_data_free. reflexivity.
Defined.

Lemma legacy_row_round_trip_example :
  returns (make_offer rnd_zero sort_keep sample_data)
    (fun o =>
       exists r photos features',
         Cli.parse_row (fun v : option jsstring => v)
           (join [TAB] (row_texts o)) = Cli.Normal r
         /\ offer_photos o = join [SEMICOLON] photos
         /\ Cli.photos r = photos
         /\ offer_features o = join [SEMICOLON] features'
         /\ Cli.features r = features'
         /\ Cli.title r = Some (value_toString (of_option (offer_title o)))
         /\ Cli.isPremium r = offer_isPremium o).
Proof.
  apply (@legacy_row_round_trip rnd_zero sort_keep rnd_zero_range
           sort_keep_permutation sample_data (dataset_well_formed _ _)
           (option jsstring) (fun v => v)).
  - apply sample_data_free. reflexivity.
  - apply sample_data_free. reflexivity.
  - discriminate.
  - discriminate.
Defined.

End EndToEndInstances.

Section GeneratedLines.
Import JS Generator.

(** The fields of a generated line: eighteen, and one more for every tab
    inside a value of the row. *)
Theorem generated_line_fields (o : Offer) :
  length (split TAB (line_of o)) =
  (18 + list_sum (map tabs (map value_toString (row_values o))))%nat.
Proof. exact (line_field_count o). Qed.

End GeneratedLines.

(** ** The transcoding loses nothing *)

Section Lossless.
Import JS TSVTransform Vocabulary.

Lemma hex_round_trip (c : N) :
  (c < 65536)%N ->
  (unhex (hex_digit (N.land (N.shiftr c 12) 15)) * 4096
   + unhex (hex_digit (N.land (N.shiftr c 8) 15)) * 256
   + unhex (hex_digit (N.land (N.shiftr c 4) 15)) * 16
   + unhex (hex_digit (N.land c 15)))%N = c.
Proof.
  intros Hc.
  assert (forall d, (d < 16)%N -> unhex (hex_digit d) = d) as Hd.
  { intros d H. unfold unhex, hex_digit.
    destruct (d <? 10)%N eqn:E.
    - apply N.ltb_lt in E.
      assert ((48 + d <? 58)%N = true) as -> by (apply N.ltb_lt; lia). lia.
    - apply N.ltb_ge in E.
      assert ((87 + d <? 58)%N = false) as -> by (apply N.ltb_ge; lia). lia. }
  change 15%N with (N.ones 4). rewrite !N.land_ones, !N.shiftr_div_pow2.
  rewrite !Hd by (apply N.mod_lt; discriminate).
  change (2 ^ 12)%N with 4096%N. change (2 ^ 8)%N with 256%N.
  change (2 ^ 4)%N with 16%N.
  pose proof (N.div_mod c 16 ltac:(discriminate)) as H0.
  pose proof (N.div_mod (c / 16) 16 ltac:(discriminate)) as H1.
  pose proof (N.div_mod (c / 16 / 16) 16 ltac:(discriminate)) as H2.
  rewrite !N.Div0.div_div in H1, H2.
  rewrite N.Div0.div_div in H2.
  change (16 * 16)%N with 256%N in *. change (256 * 16)%N with 4096%N in *.
  assert (c / 4096 < 16)%N as H3
    by (apply N.Div0.div_lt_upper_bound; lia).
  rewrite (N.mod_small (c / 4096) 16) by exact H3.
  generalize dependent ((c / 256) mod 16)%N.
  generalize dependent ((c / 16) mod 16)%N.
  generalize dependent (c mod 16)%N.
  generalize dependent (c / 4096)%N.
  generalize dependent (c / 256)%N.
  generalize dependent (c / 16)%N.
  intros. lia.
Qed.

(** Reading the escape of one code unit gives the code unit back. *)
Lemma read_quote_unit (c : N) (rest : jsstring) :
  read_string (quote_unit c ++ rest) =
  let (text, rest') := read_string rest in (c :: text, rest').
Proof.
  unfold quote_unit.
  destruct (c =? 8)%N eqn:E8;
    [apply N.eqb_eq in E8; subst; cbn; now destruct (read_string rest)|].
  destruct (c =? 9)%N eqn:E9;
    [apply N.eqb_eq in E9; subst; cbn; now destruct (read_string rest)|].
  destruct (c =? 10)%N eqn:E10;
    [apply N.eqb_eq in E10; subst; cbn; now destruct (read_string rest)|].
  destruct (c =? 12)%N eqn:E12;
    [apply N.eqb_eq in E12; subst; cbn; now destruct (read_string rest)|].
  destruct (c =? 13)%N eqn:E13;
    [apply N.eqb_eq in E13; subst; cbn; now destruct (read_string rest)|].
  destruct (c =? 34)%N eqn:E34;
    [apply N.eqb_eq in E34; subst; cbn; now destruct (read_string rest)|].
  destruct (c =? 92)%N eqn:E92;
    [apply N.eqb_eq in E92; subst; cbn; now destruct (read_string rest)|].
  destruct ((c <? 32)%N || is_high_surrogate c || is_low_surrogate c) eqn:E.
  - assert (c < 65536)%N as Hc.
    { apply Bool.orb_true_iff in E as [E|E];
        [apply Bool.orb_true_iff in E as [E|E]|].
      - apply N.ltb_lt in E. lia.
      - unfold is_high_surrogate in E. apply andb_prop in E as [_ E].
        apply N.leb_le in E. lia.
      - unfold is_low_surrogate in E. apply andb_prop in E as [_ E].
        apply N.leb_le in E. lia. }
    unfold UnicodeEscape.
    cbn [app read_string N.eqb Pos.eqb].
    destruct (read_string rest) as [text rest'].
    now rewrite (hex_round_trip Hc).
  - cbn [app read_string]. rewrite E34, E92.
    now destruct (read_string rest).
Qed.

(** Reading a quoted text up to its closing quote gives the text back, and
    what follows the quote. *)
Lemma read_quote_body (s rest : jsstring) :
  read_string (quote_body s ++ 34%N :: rest) = (s, rest).
Proof.
  assert (forall n s, (length s <= n)%nat ->
            read_string (quote_body s ++ 34%N :: rest) = (s, rest)) as H.
  { clear s. induction n as [|n IH]; intros s Hn.
    - destruct s; [reflexivity | cbn in Hn; lia].
    - destruct s as [|c [|d tl]]; [reflexivity| |].
      + cbn [quote_body]. rewrite read_quote_unit. reflexivity.
      + rewrite quote_body_pair.
        destruct (is_high_surrogate c && is_low_surrogate d) eqn:E.
        * apply andb_prop in E as [Ec Ed].
          unfold is_high_surrogate in Ec. unfold is_low_surrogate in Ed.
          apply andb_prop in Ec as [Ec _]. apply andb_prop in Ed as [Ed _].
          apply N.leb_le in Ec, Ed.
          cbn [app read_string].
          assert ((c =? 34)%N = false) as -> by (apply N.eqb_neq; lia).
          assert ((c =? 92)%N = false) as -> by (apply N.eqb_neq; lia).
          assert ((d =? 34)%N = false) as -> by (apply N.eqb_neq; lia).
          assert ((d =? 92)%N = false) as -> by (apply N.eqb_neq; lia).
          rewrite IH by (cbn in Hn; lia). reflexivity.
        * rewrite <- app_assoc, read_quote_unit.
          rewrite IH by (cbn in Hn |- *; lia). reflexivity. }
  now apply (H (length s)).
Qed.

Lemma quoted_prefix (a b rest1 rest2 : jsstring) :
  QuoteJSONString a ++ rest1 = QuoteJSONString b ++ rest2 ->
  a = b /\ rest1 = rest2.
Proof.
  unfold QuoteJSONString. rewrite <- !app_assoc. cbn [app].
  intros H. injection H as H.
  apply (f_equal read_string) in H. rewrite !read_quote_body in H.
  now inversion H.
Qed.

(** [QuoteJSONString] is injective, also in front of other text: no two
    texts have the same JSON string, and a JSON string ends where its
    closing quote stands. *)
Theorem QuoteJSONString_injective (a b rest1 rest2 : jsstring) :
  QuoteJSONString a ++ rest1 = QuoteJSONString b ++ rest2 ->
  a = b /\ rest1 = rest2.
Proof. exact (@quoted_prefix a b rest1 rest2). Qed.

Lemma QuoteJSONString_injective_example :
  js "a"%str = js "a"%str /\ js "b"%str = js "b"%str.
Proof.
  apply (@QuoteJSONString_injective (js "a"%str) (js "a"%str)
           (js "b"%str) (js "b"%str)).
  reflexivity.
Defined.

Lemma properties_cons (k v : jsstring) (o : object) :
  flat_map JSON_property ((k, Some v) :: o)
  = (QuoteJSONString k ++ [58%N] ++ QuoteJSONString v)
    :: flat_map JSON_property o.
Proof. reflexivity. Qed.

Lemma join_more (glue x y : jsstring) (xs : list jsstring) :
  join glue (x :: y :: xs) = x ++ glue ++ join glue (y :: xs).
Proof. reflexivity. Qed.

(** Objects with the same keys and the same JSON text have the same
    values. *)
Lemma properties_injective (keys : list jsstring) :
  forall (vs ws : list jsstring) (rest1 rest2 : jsstring),
    length vs = length keys -> length ws = length keys ->
    join [44%N] (flat_map JSON_property (combine keys (map Some vs))) ++ rest1
    = join [44%N] (flat_map JSON_property (combine keys (map Some ws)))
      ++ rest2 ->
    vs = ws /\ rest1 = rest2.
Proof.
  induction keys as [|k keys IH]; intros vs ws rest1 rest2 Hvs Hws H.
  - destruct vs; [|discriminate Hvs]. destruct ws; [|discriminate Hws].
    now split.
  - destruct vs as [|v vs]; [discriminate Hvs|].
    destruct ws as [|w ws]; [discriminate Hws|].
    cbn [length] in Hvs, Hws. injection Hvs as Hvs. injection Hws as Hws.
    cbn [map combine] in H. rewrite !properties_cons in H.
    destruct keys as [|k' keys].
    + destruct vs; [|discriminate Hvs]. destruct ws; [|discriminate Hws].
      cbn [map combine flat_map join] in H.
      rewrite <- !app_assoc in H. do 2 apply app_inv_head in H.
      apply quoted_prefix in H as [-> ->]. now split.
    + destruct vs as [|v' vs]; [discriminate Hvs|].
      destruct ws as [|w' ws]; [discriminate Hws|].
      specialize (IH (v' :: vs) (w' :: ws) rest1 rest2 Hvs Hws).
      cbn [map combine] in H, IH. rewrite !properties_cons in H, IH.
      rewrite !join_more in H.
      rewrite <- !app_assoc in H. do 2 apply app_inv_head in H.
      apply quoted_prefix in H as [-> H]. apply app_inv_head in H.
      destruct (IH H) as [E ->]. injection E as -> ->. now split.
Qed.

Lemma json_line_injective (fields1 fields2 : list jsstring) :
  length fields1 = 18%nat -> length fields2 = 18%nat ->
  json_line fields1 = json_line fields2 -> fields1 = fields2.
Proof.
  intros H1 H2 H. unfold json_line, JSON_stringify in H.
  rewrite <- !app_assoc in H. apply app_inv_head in H.
  now destruct (@properties_injective columns fields1 fields2 _ _ H1 H2 H).
Qed.

(** The transcoding of valid lines loses nothing: two lines that are not
    blank, have eighteen fields each and are given the same JSON line are
    the same line. *)
Theorem transcoding_injective (line1 line2 : jsstring) :
  trim line1 <> [] -> trim line2 <> [] ->
  length (split TAB line1) = 18%nat ->
  length (split TAB line2) = 18%nat ->
  transform_line line1 = transform_line line2 ->
  line1 = line2.
Proof.
  intros Hb1 Hb2 Hl1 Hl2 H.
  rewrite !transform_line_valid in H by assumption.
  assert (json_line (split TAB line1) = json_line (split TAB line2)) as Hj
    by (unfold json_line; congruence).
  apply (@json_line_injective _ _ Hl1 Hl2) in Hj.
  now rewrite <- (join_split TAB line1), Hj, join_split.
Qed.

Lemma transcoding_injective_example :
  example_line = example_line.
Proof.
  apply (@transcoding_injective example_line example_line);
    try (vm_compute; discriminate); reflexivity.
Defined.

End Lossless.

(** ** Coordinates *)

Section Coordinates.
Import JS Generator Vocabulary.

Lemma uint_digits_digit (d : Decimal.uint) : Forall digit (uint_digits d).
Proof.
  induction d; cbn [uint_digits]; constructor; try assumption;
    unfold digit; lia.
Qed.

(** [x.toFixed(n)] with [n > 0]: an optional minus sign, at least one
    digit, a point and exactly [n] digits. *)
Lemma toFixed_shape (x : R) (n : nat) :
  exists sign whole fraction,
    toFixed x (S n) = sign ++ whole ++ [46%N] ++ fraction
    /\ (sign = [] \/ sign = [45%N])
    /\ whole <> []
    /\ Forall digit whole
    /\ Forall digit fraction
    /\ length fraction = S n.
Proof.
  unfold toFixed.
  set (m0 := decimal _).
  set (m := repeat 48%N (S (S n) - length m0) ++ m0).
  assert (Forall digit m) as Hm.
  { unfold m. apply Forall_app. split; [|apply uint_digits_digit].
    apply Forall_forall. intros c Hc. apply repeat_spec in Hc. subst.
    unfold digit. lia. }
  assert (S (S n) <= length m)%nat as Hlen
    by (unfold m; rewrite length_app, repeat_length; lia).
  destruct (Forall_firstn_skipn (length m - S n) Hm) as [Hf Hs].
  exists (if Rlt_dec x 0 then [45%N] else []),
         (firstn (length m - S n) m), (skipn (length m - S n) m).
  split; [reflexivity|]. split; [destruct (Rlt_dec x 0); auto|].
  split.
  - intros H. apply (f_equal (@length _)) in H.
    rewrite length_firstn in H. cbn [length] in H. lia.
  - split; [exact Hf|]. split; [exact Hs|]. rewrite length_skipn. lia.
Qed.

Variable rnd : nat -> R.
Variable Array_sort :
  forall T : Type, (T -> T -> M R) -> list T -> M (list T).
Hypothesis rnd_range : forall p, (0 <= rnd p < 1)%R.
Hypothesis Array_sort_permutation :
  forall (T : Type) (comparefn : T -> T -> M R) (xs : list T),
    (forall a b, returns (comparefn a b) (fun _ => True)) ->
    returns (Array_sort comparefn xs) (fun ys => Permutation ys xs).



End Coordinates.

Section CoordinatesInstances.
Import JS Generator Vocabulary.



End CoordinatesInstances.
